(** * Shallow embedding of the EQuBS confocal demo drivers

    Sources embedded here:
    - [src/experiments/nspyre-jv-main/Instruments/Drivers/examples/sg.py]
      (the fake signal generator [SigGen]);
    - [src/demo/simple_odmr/spin_measurements.py]
      ([SpinMeasurements.odmr_sweep]);
    - [src/demo/simple_odmr/gui_elements.py] and
      [src/demo/custom_odmr/gui_elements.py]
      ([CustomODMRPlotWidget.update]).

    Numbers.  Python floats are modelled as rationals extended with the
    IEEE special values ([pyfloat]); the comparisons [<] and [>] follow
    IEEE semantics (every comparison with NaN is false).  Arithmetic of
    the sweep (numpy's [linspace], the division by [1e9], [np.average])
    is carried out exactly in [Q]: rounding of intermediate floats is
    abstracted away.

    Effects.  Python methods mutate objects and raise exceptions; an
    exception does not roll back the mutations done before it.  The
    monad [PyM S] below threads a state [S] and returns it whether the
    computation returned normally or raised. *)

From Stdlib Require Import String List ZArith QArith Lia Lqa Bool.
Import ListNotations.
Open Scope string_scope.

(* ------------------------------------------------------------------ *)
(** ** Python floats *)

Inductive pyfloat : Type :=
| Fin (q : Q)
| PInf
| NInf
| NaN.

(** [a < b] on Python floats. *)
Definition py_lt (a b : pyfloat) : bool :=
  match a, b with
  | NaN, _ | _, NaN => false
  | Fin x, Fin y => negb (Qle_bool y x)
  | NInf, NInf => false
  | NInf, _ => true
  | _, NInf => false
  | PInf, _ => false
  | Fin _, PInf => true
  end.

(** [a > b] on Python floats. *)
Definition py_gt (a b : pyfloat) : bool := py_lt b a.

(** Python float literals used by the code. *)
Definition f_100e3 : pyfloat := Fin (100000 # 1).
Definition f_10e9 : pyfloat := Fin (10000000000 # 1).
Definition f_m30 : pyfloat := Fin ((-30) # 1).
Definition f_10 : pyfloat := Fin (10 # 1).

(* ------------------------------------------------------------------ *)
(** ** Exceptions and the state/exception monad *)

Inductive exn : Type :=
| ValueError (msg : string)
| IndexError (msg : string)
| KeyError (msg : string)
| ZeroDivisionError (msg : string).

Inductive result (A : Type) : Type :=
| Ok (a : A)
| Raise (e : exn).
Arguments Ok {A} a.
Arguments Raise {A} e.

Definition PyM (S A : Type) : Type := S -> result A * S.

Definition ret {S A} (a : A) : PyM S A := fun s => (Ok a, s).

Definition bind {S A B} (c : PyM S A) (k : A -> PyM S B) : PyM S B :=
  fun s =>
    match c s with
    | (Ok a, s') => k a s'
    | (Raise e, s') => (Raise e, s')
    end.

Definition raise {S A} (e : exn) : PyM S A := fun s => (Raise e, s).
Definition get {S} : PyM S S := fun s => (Ok s, s).
Definition put {S} (s : S) : PyM S unit := fun _ => (Ok tt, s).

Notation "x <- c ;; k" := (bind c (fun x => k))
  (at level 61, c at next level, right associativity).
Notation "c ;;; k" := (bind c (fun _ => k))
  (at level 61, right associativity).

(* ------------------------------------------------------------------ *)
(** ** [sg.py]: the fake signal generator *)

Module SG.

(** [self.output_en], [self._amplitude], [self._frequency]. *)
Record SigGen : Type := mkSigGen {
  output_en : bool;
  _amplitude : pyfloat;
  _frequency : pyfloat
}.

(** [__init__] *)
Definition init : SigGen :=
  {| output_en := false; _amplitude := Fin 0; _frequency := f_100e3 |}.

Definition frequency : PyM SigGen pyfloat :=
  self <- get ;; ret (_frequency self).

Definition set_frequency (value : pyfloat) : PyM SigGen unit :=
  if py_lt value f_100e3 || py_gt value f_10e9 then
    raise (ValueError "Frequency must be in range [100kHz, 10GHz].")
  else
    self <- get ;;
    put {| output_en := output_en self; _amplitude := _amplitude self;
           _frequency := value |}.
    (* logger.info is an external side effect, not modelled *)

Definition amplitude : PyM SigGen pyfloat :=
  self <- get ;; ret (_amplitude self).

Definition set_amplitude (value : pyfloat) : PyM SigGen unit :=
  if py_lt value f_m30 || py_gt value f_10 then
    raise (ValueError "Amplitude must be in range [-30dBm, 10dBm].")
  else
    self <- get ;;
    put {| output_en := output_en self; _amplitude := value;
           _frequency := _frequency self |}.

(** [calibrate] only logs. *)
Definition calibrate : PyM SigGen unit := ret tt.

(** A call made on a [SigGen] object. *)
Inductive call : Type :=
| CSetFrequency (v : pyfloat)
| CSetAmplitude (v : pyfloat)
| CFrequency
| CAmplitude
| CCalibrate.

(** The object after one call, whether the call returned or raised. *)
Definition exec_call (c : call) (s : SigGen) : SigGen :=
  match c with
  | CSetFrequency v => snd (set_frequency v s)
  | CSetAmplitude v => snd (set_amplitude v s)
  | CFrequency => snd (frequency s)
  | CAmplitude => snd (amplitude s)
  | CCalibrate => snd (calibrate s)
  end.

Definition exec_calls (cs : list call) (s : SigGen) : SigGen :=
  fold_left (fun s c => exec_call c s) cs s.

(** The range invariant: amplitude in [-30, 10], frequency in
    [100e3, 10e9]. *)
Definition in_range (lo hi : Q) (v : pyfloat) : Prop :=
  match v with
  | Fin q => (lo <= q /\ q <= hi)%Q
  | _ => False
  end.

Definition range_inv (s : SigGen) : Prop :=
  in_range ((-30) # 1) (10 # 1) (_amplitude s) /\
  in_range (100000 # 1) (10000000000 # 1) (_frequency s).

End SG.

(* ------------------------------------------------------------------ *)
(** ** numpy helpers used by the sweep and the plot *)

Module Np.

Definition arr1 := list Q.
Definition arr2 := list (list Q).

(** [y[-1] = x] on a non-empty 1-D array. *)
Definition set_last (y : arr1) (x : Q) : arr1 :=
  match y with
  | [] => []
  | _ => (removelast y ++ [x])%list
  end.

(** [np.linspace(start, stop, num)] with the default [endpoint=True],
    following numpy's [function_base.linspace]:
    [y = arange(0, num) * step + start] where [step = delta / div] and
    [div = num - 1]; when [div <= 0] it multiplies by [delta] instead;
    finally [y[-1] = stop] when [num > 1]. *)
Definition linspace (start stop : Q) (num : Z) : result arr1 :=
  if (num <? 0)%Z then
    Raise (ValueError "Number of samples must be non-negative.")
  else
    let div := (num - 1)%Z in
    let delta := (stop - start)%Q in
    let ar := map (fun i => inject_Z (Z.of_nat i)) (seq 0 (Z.to_nat num)) in
    let y :=
      if (0 <? div)%Z then
        let step := (delta / inject_Z div)%Q in
        if Qeq_bool step 0 then
          map (fun i => (i / inject_Z div * delta + start)%Q) ar
        else map (fun i => (i * step + start)%Q) ar
      else map (fun i => (i * delta + start)%Q) ar in
    Ok (if (1 <? num)%Z then set_last y stop else y).

(** [np.zeros(n)] *)
Definition zeros (n : Z) : arr1 := repeat 0%Q (Z.to_nat n).

(** [a[i] = x] on a 1-D array; numpy raises [IndexError] out of range. *)
Fixpoint setitem (a : arr1) (i : nat) (x : Q) : result arr1 :=
  match a, i with
  | [], _ => Raise (IndexError "index out of bounds")
  | _ :: t, O => Ok (x :: t)
  | h :: t, S i' =>
      match setitem t i' x with
      | Ok t' => Ok (h :: t')
      | Raise e => Raise e
      end
  end.

(** [np.stack] of 1-D arrays along a new first axis. *)
Definition stack1 (rows : list arr1) : result arr2 :=
  match rows with
  | [] => Raise (ValueError "need at least one array to stack")
  | r :: rs =>
      if forallb (fun r' => Nat.eqb (length r') (length r)) rs then Ok rows
      else Raise (ValueError "all input arrays must have the same shape")
  end.

Definition shape2 (a : arr2) : list nat := map (@length Q) a.

Definition add2 (a b : arr2) : arr2 :=
  map (fun '(r, s) => map (fun '(x, y) => (x + y)%Q) (combine r s))
      (combine a b).

(** [np.asanyarray] of a nested list: every row has the same length. *)
Definition rectangular (a : arr2) : bool :=
  match shape2 a with
  | [] => true
  | n :: ns => forallb (Nat.eqb n) ns
  end.

(** Number of elements of a rectangular 2-D array. *)
Definition size2 (a : arr2) : nat :=
  match a with
  | [] => 0
  | r :: _ => length a * length r
  end.

(** [np.average(np.stack(xs), axis=0)]: [np.stack] converts each array
    (a ragged one raises), checks that there is one and that they share
    one shape; [np.average] then divides [a.size] by [avg.size], which
    raises [ZeroDivisionError] for zero-size arrays; otherwise the
    unweighted average is the element-wise sum divided by the number of
    arrays. *)
Definition average_stack (xs : list arr2) : result arr2 :=
  if forallb rectangular xs then
    match xs with
    | [] => Raise (ValueError "need at least one array to stack")
    | a :: rest =>
        if forallb (fun b => if list_eq_dec Nat.eq_dec (shape2 b) (shape2 a)
                             then true else false) rest
        then
          if Nat.eqb (size2 a) 0 then Raise (ZeroDivisionError "division by zero")
          else
            let n := inject_Z (Z.of_nat (length xs)) in
            Ok (map (map (fun x => x / n)%Q) (fold_left add2 rest a))
        else Raise (ValueError "all input arrays must have the same shape")
    end
  else Raise (ValueError "setting an array element with a sequence: inhomogeneous shape").

End Np.

(* ------------------------------------------------------------------ *)
(** ** [spin_measurements.py]: the ODMR sweep *)

Module Sweep.

(** The driver proxy [gw.drv] reached through the instrument gateway:
    the four methods [odmr_sweep] calls, over a driver state [D].  Each
    may raise, and keeps whatever state it reached when it raises. *)
Record Driver (D : Type) : Type := mkDriver {
  set_amplitude : pyfloat -> PyM D unit;
  set_output_en : bool -> PyM D unit;
  set_frequency : pyfloat -> PyM D unit;
  cnts : Q -> PyM D Q
}.
Arguments mkDriver {D}.
Arguments set_amplitude {D}.
Arguments set_output_en {D}.
Arguments set_frequency {D}.
Arguments cnts {D}.

(** Python values that appear in a pushed record. *)
Set Warnings "-register-all".
Inductive pyval : Type :=
| PStr (s : string)
| PFloat (q : Q)
| PInt (z : Z)
| PArr (a : Np.arr2)
| PList (l : list pyval)
| PDict (kv : list (string * pyval)).

(** What the outside world observes: each driver call (recorded when it
    is issued) and each [push] on the data source named [ch]. *)
Inductive event : Type :=
| EvSetAmplitude (v : pyfloat)
| EvSetOutputEn (b : bool)
| EvSetFrequency (v : pyfloat)
| EvCnts (t : Q)
| EvPush (ch : string) (r : pyval).

Record world (D : Type) : Type := mkWorld {
  drv : D;
  trace : list event
}.
Arguments mkWorld {D}.
Arguments drv {D}.
Arguments trace {D}.

Definition pushes {D} (w : world D) : list pyval :=
  flat_map (fun e => match e with EvPush _ r => [r] | _ => [] end) (trace w).

(** The record shape of [odmr_data.push({...})]. *)
Definition record (start stop : Q) (num_points iterations : Z)
    (mydata : list Np.arr2) : pyval :=
  PDict [("params", PDict [("start", PFloat start); ("stop", PFloat stop);
                           ("num_points", PInt num_points);
                           ("iterations", PInt iterations)]);
         ("title", PStr "Optically Detected Magnetic Resonance");
         ("xlabel", PStr "Frequency (GHz)");
         ("ylabel", PStr "Counts");
         ("datasets", PDict [("mydata", PList (map PArr mydata))])].

Section Run.

Context {D : Type} (dr : Driver D).

(** Issue a driver call through the gateway. *)
Definition call {A} (ev : event) (c : PyM D A) : PyM (world D) A :=
  fun w =>
    let '(r, d') := c (drv w) in
    (r, mkWorld d' (trace w ++ [ev])%list).

Definition drv_set_amplitude (v : pyfloat) : PyM (world D) unit :=
  call (EvSetAmplitude v) (set_amplitude dr v).
Definition drv_set_output_en (b : bool) : PyM (world D) unit :=
  call (EvSetOutputEn b) (set_output_en dr b).
Definition drv_set_frequency (v : pyfloat) : PyM (world D) unit :=
  call (EvSetFrequency v) (set_frequency dr v).
Definition drv_cnts (t : Q) : PyM (world D) Q :=
  call (EvCnts t) (cnts dr t).

(** [DataSource.push] serialises the record when it is called, so the
    pushed value is a snapshot of the shared [data] dictionary. *)
Definition push (ch : string) (r : pyval) : PyM (world D) unit :=
  fun w => (Ok tt, mkWorld (drv w) (trace w ++ [EvPush ch r])%list).

Definition lift {A} (r : result A) : PyM (world D) A :=
  match r with Ok a => ret a | Raise e => raise e end.

(** [for f, freq in enumerate(frequencies): gw.drv.set_frequency(freq);
    counts[f] = gw.drv.cnts(0.01)] *)
Fixpoint sweep_points (fs : Np.arr1) (f : nat) (counts : Np.arr1)
    : PyM (world D) Np.arr1 :=
  match fs with
  | [] => ret counts
  | freq :: fs' =>
      drv_set_frequency (Fin freq) ;;;
      c <- drv_cnts (1 # 100) ;;
      counts' <- lift (Np.setitem counts f c) ;;
      sweep_points fs' (S f) counts'
  end.

Variables (dataset : string) (start stop : Q) (num_points iterations : Z).

(** One pass of the body of [for i in range(iterations)]; [data] is the
    list [data['mydata']] before the pass, the result the list after. *)
Definition iteration (data : list Np.arr2) : PyM (world D) (list Np.arr2) :=
  frequencies <- lift (Np.linspace start stop num_points) ;;
  let counts := Np.zeros num_points in
  counts <- sweep_points frequencies 0 counts ;;
  a <- lift (Np.stack1 [map (fun x => x / (1000000000 # 1))%Q frequencies;
                        counts]) ;;
  let data' := (data ++ [a])%list in
  push dataset (record start stop num_points iterations data') ;;;
  ret data'.

Fixpoint loop (n : nat) (data : list Np.arr2) : PyM (world D) (list Np.arr2) :=
  match n with
  | O => ret data
  | S n' => data' <- iteration data ;; loop n' data'
  end.

(** [gw.drv.set_amplitude(6.5); gw.drv.set_output_en(True)] *)
Definition prologue : PyM (world D) unit :=
  drv_set_amplitude (Fin (13 # 2)) ;;;
  drv_set_output_en true.

(** [odmr_sweep] inside its [with] block (the gateway connection and the
    data source are opened and released by the framework). *)
Definition odmr_sweep : PyM (world D) unit :=
  prologue ;;;
  _ <- loop (Z.to_nat iterations) [] ;;
  ret tt.

End Run.

(** A driver for concrete runs: the [SigGen] of [sg.py] for amplitude and
    frequency, an output switch, and a photon counter that always reads
    [10]. *)
Definition const10_drv : Driver SG.SigGen :=
  mkDriver SG.set_amplitude
    (fun b s => (Ok tt, SG.mkSigGen b (SG._amplitude s) (SG._frequency s)))
    SG.set_frequency
    (fun _ => ret (10 # 1)).

Definition w0 : world SG.SigGen := mkWorld SG.init [].

(** Keys of a dictionary value, in insertion order. *)
Definition keys (v : pyval) : list string :=
  match v with PDict kv => map fst kv | _ => [] end.

Fixpoint assoc (k : string) (kv : list (string * pyval)) : option pyval :=
  match kv with
  | [] => None
  | (k', v) :: kv' => if String.eqb k k' then Some v else assoc k kv'
  end.

Definition getitem (v : pyval) (k : string) : option pyval :=
  match v with PDict kv => assoc k kv | _ => None end.

(** [record['datasets']['mydata']] read back as a list of arrays. *)
Definition mydata_of (r : pyval) : option (list Np.arr2) :=
  match getitem r "datasets" with
  | Some ds =>
      match getitem ds "mydata" with
      | Some (PList l) =>
          fold_right (fun v acc =>
            match v, acc with
            | PArr a, Some as_ => Some (a :: as_)
            | _, _ => None
            end) (Some []) l
      | _ => None
      end
  | None => None
  end.

(** A 2 x n array. *)
Definition shape_2xn (n : Z) (a : Np.arr2) : Prop :=
  length a = 2%nat /\ Forall (fun row => Z.of_nat (length row) = n) a.

(** Events the loop body may issue. *)
Definition loop_event (e : event) : Prop :=
  match e with
  | EvSetFrequency _ | EvCnts _ | EvPush _ _ => True
  | _ => False
  end.

Definition not_push (e : event) : Prop :=
  match e with EvPush _ _ => False | _ => True end.

End Sweep.

(* ------------------------------------------------------------------ *)
(** ** [gui_elements.py]: [CustomODMRPlotWidget.update] *)

Module Plot.

(** The subscribe side of the data channel, as [update] sees it: the
    result [self.sink.pop()] returns now, and [self.sink.datasets]. *)
Record DataSink : Type := mkDataSink {
  pop : bool;
  datasets : list (string * list Np.arr2)
}.

Fixpoint lookup (k : string) (d : list (string * list Np.arr2))
    : result (list Np.arr2) :=
  match d with
  | [] => Raise (KeyError k)
  | (k', v) :: d' => if String.eqb k k' then Ok v else lookup k d'
  end.

(** The curve handed to [self.set_data(name, xs, ys)], if any. *)
Definition update (sink : DataSink) : result (option (string * Np.arr1 * Np.arr1)) :=
  if pop sink then
    match lookup "mydata" (datasets sink) with
    | Raise e => Raise e
    | Ok series =>
        match Np.average_stack series with
        | Raise e => Raise e
        | Ok (freqs :: counts :: _) => Ok (Some ("odmr", freqs, counts))
        | Ok _ => Raise (IndexError "index out of bounds")
        end
    end
  else Ok None.

End Plot.

(** Chains: every element is related to the next one. *)
Fixpoint chain (R : Q -> Q -> Prop) (l : list Q) : Prop :=
  match l with
  | x :: ((y :: _) as t) => R x y /\ chain R t
  | _ => True
  end.

Definition raised {A} (r : result A) : bool :=
  match r with Raise _ => true | Ok _ => false end.

Module SweepRuns.
Import Sweep.

(** A driver call of one pass over the points [fs]. *)
Definition drv_ev_in (fs : Np.arr1) (e : event) : Prop :=
  match e with
  | EvSetFrequency v => exists q, v = Fin q /\ In q fs
  | EvCnts t => t = (1 # 100)%Q
  | _ => False
  end.

(** The array one completed pass stacks, for the points [fs]. *)
Definition pass_array (fs : Np.arr1) (a : Np.arr2) : Prop :=
  exists counts,
    a = [map (fun x => x / (1000000000 # 1))%Q fs; counts] /\
    length counts = length fs.

(** The records pushed by [n] completed passes after [data], the passes
    having stacked the arrays [arrs]. *)
Definition pushed_after (start stop : Q) (num_points iterations : Z)
    (data arrs : list Np.arr2) (n : nat) : list pyval :=
  map (fun k => record start stop num_points iterations (data ++ firstn k arrs)%list)
      (seq 1 n).

(** Concrete runs against [const10_drv]. *)
Definition demo_run : result unit * world SG.SigGen :=
  odmr_sweep const10_drv "odmr" (3000000000 # 1) (4000000000 # 1) 5 3 w0.

Definition demo_single : result unit * world SG.SigGen :=
  odmr_sweep const10_drv "odmr" (3000000000 # 1) (4000000000 # 1) 1 2 w0.

(** [stop = 20e9] is out of the generator's range: the third point of
    the first pass, [11.5e9], is rejected. *)
Definition demo_fail : result unit * world SG.SigGen :=
  odmr_sweep const10_drv "odmr" (3000000000 # 1) (20000000000 # 1) 5 2 w0.

End SweepRuns.
(** A call whose argument, if any, is not NaN. *)
Definition call_nan_free (c : SG.call) : Prop :=
  match c with
  | SG.CSetFrequency v | SG.CSetAmplitude v => v <> NaN
  | _ => True
  end.

(** The driver calls of one pass over the points [fs], in order. *)
Definition pass_events (fs : Np.arr1) : list Sweep.event :=
  flat_map (fun q => [Sweep.EvSetFrequency (Fin q); Sweep.EvCnts (1 # 100)]) fs.

(** The frequencies [SigGen.set_frequency] accepts. *)
Definition freq_in_range (q : Q) : Prop := 100000 # 1 <= q <= 10000000000 # 1.

(** Entry [m[i][j]] of a 2-D array, [0] outside it. *)
Definition entry (m : Np.arr2) (i j : nat) : Q := nth j (nth i m []) 0%Q.

(** Sum of a list of numbers. *)
Definition sumQ (l : list Q) : Q := fold_right Qplus 0%Q l.

(* ------------------------------------------------------------------ *)
(** ** [gui_elements.py]: launching a sweep from the widgets *)

Module Widgets.
Import Sweep.

(** The values [self.params_widget] hands to [sweep_clicked]. *)
Record Params : Type := mkParams {
  dataset : string;
  start_freq : Q;
  stop_freq : Q;
  num_points : Z;
  iterations : Z
}.

(** The [SpinBox] bounds of [params_config]: both frequencies in
    [(100e3, 10e9)], [num_points] and [iterations] at least [1]. *)
Definition in_bounds (p : Params) : Prop :=
  (100000 # 1 <= start_freq p <= 10000000000 # 1)%Q /\
  (100000 # 1 <= stop_freq p <= 10000000000 # 1)%Q /\
  (1 <= num_points p)%Z /\ (1 <= iterations p)%Z.

(** [sweep_clicked]: [spin_meas.odmr_sweep(dataset, start_freq,
    stop_freq, num_points, iterations)], run by the [ProcessRunner]
    (module reloading and process start-up are the framework's). *)
Definition sweep_clicked {D} (dr : Driver D) (p : Params) : PyM (world D) unit :=
  odmr_sweep dr (dataset p) (start_freq p) (stop_freq p) (num_points p)
    (iterations p).

End Widgets.

Import Sweep SweepRuns.

(* ================================================================== *)
(** * Properties *)

(* ------------------------------------------------------------------ *)
(** ** The signal generator *)

(** C2: [set_frequency v] raises exactly when [v < 100e3] or
    [v > 10e9] (Python comparisons); a rejected call leaves the object
    as it was (in particular its frequency), an accepted one stores [v]. *)
Theorem set_frequency_contract (v : pyfloat) (s : SG.SigGen) :
  (raised (fst (SG.set_frequency v s)) = true <->
     py_lt v f_100e3 = true \/ py_gt v f_10e9 = true) /\
  (raised (fst (SG.set_frequency v s)) = true ->
     snd (SG.set_frequency v s) = s /\
     SG._frequency (snd (SG.set_frequency v s)) = SG._frequency s) /\
  (raised (fst (SG.set_frequency v s)) = false ->
     SG._frequency (snd (SG.set_frequency v s)) = v).
Proof.
  unfold SG.set_frequency.
  destruct (py_lt v f_100e3) eqn:Hlo, (py_gt v f_10e9) eqn:Hhi; cbn;
    repeat split; intuition congruence.
Qed.

(** C3: [set_amplitude v] raises exactly when [v < -30] or [v > 10];
    a rejected call leaves the object as it was, an accepted one stores
    [v]. *)
Theorem set_amplitude_contract (v : pyfloat) (s : SG.SigGen) :
  (raised (fst (SG.set_amplitude v s)) = true <->
     py_lt v f_m30 = true \/ py_gt v f_10 = true) /\
  (raised (fst (SG.set_amplitude v s)) = true ->
     snd (SG.set_amplitude v s) = s /\
     SG._amplitude (snd (SG.set_amplitude v s)) = SG._amplitude s) /\
  (raised (fst (SG.set_amplitude v s)) = false ->
     SG._amplitude (snd (SG.set_amplitude v s)) = v).
Proof.
  unfold SG.set_amplitude.
  destruct (py_lt v f_m30) eqn:Hlo, (py_gt v f_10) eqn:Hhi; cbn;
    repeat split; intuition congruence.
Qed.

(** For finite values (and the infinities) the range check is exact. *)
Lemma py_range_check_not_nan (lo hi : Q) (v : pyfloat) :
  v <> NaN ->
  (py_lt v (Fin lo) || py_gt v (Fin hi)) = false ->
  SG.in_range lo hi v.
Proof.
  intros Hn H; apply orb_false_iff in H as [H1 H2].
  destruct v as [q| | |]; cbn in *; try discriminate; try congruence.
  apply negb_false_iff, Qle_bool_iff in H1.
  apply negb_false_iff, Qle_bool_iff in H2.
  split; assumption.
Qed.

(** Away from NaN the range invariant of [SigGen] is kept by every call,
    returned or raised. *)
Lemma exec_call_range_inv (c : SG.call) (s : SG.SigGen) :
  (forall v, c = SG.CSetFrequency v \/ c = SG.CSetAmplitude v -> v <> NaN) ->
  SG.range_inv s -> SG.range_inv (SG.exec_call c s).
Proof.
  intros Hc [Ha Hf].
  destruct c as [v|v| | |]; cbn; try (split; assumption).
  - unfold SG.set_frequency.
    destruct (py_lt v f_100e3 || py_gt v f_10e9) eqn:E; cbn.
    + split; assumption.
    + split; [assumption|].
      apply py_range_check_not_nan; [apply (Hc v); auto | exact E].
  - unfold SG.set_amplitude.
    destruct (py_lt v f_m30 || py_gt v f_10) eqn:E; cbn.
    + split; assumption.
    + split; [|assumption].
      apply py_range_check_not_nan; [apply (Hc v); auto | exact E].
Qed.

(** C9 (code_bug): a fresh [SigGen] has [output_en = False],
    amplitude [0.0], frequency [100e3] and satisfies the range invariant,
    but the range check [value < -30 or value > 10] lets NaN through:
    after [set_amplitude(float('nan'))] the stored amplitude is NaN,
    outside [-30, 10]. *)
Theorem siggen_nan_escapes_range :
  SG.output_en SG.init = false /\ SG._amplitude SG.init = Fin 0 /\
  SG._frequency SG.init = f_100e3 /\
  SG.range_inv SG.init /\
  raised (fst (SG.set_amplitude NaN SG.init)) = false /\
  SG._amplitude (SG.exec_calls [SG.CSetAmplitude NaN] SG.init) = NaN /\
  ~ SG.range_inv (SG.exec_calls [SG.CSetAmplitude NaN] SG.init).
Proof.
  repeat split; try reflexivity; try (vm_compute; congruence).
  intros [H _]; exact H.
Qed.

(* ------------------------------------------------------------------ *)
(** ** The plot widget *)

(** C6: with the series [[[1,2],[10,20]], [[1,2],[30,40]]] available,
    [update] sets the curve [odmr] to x-values [1,2] and y-values
    [20,30]. *)
Theorem plot_update_averages :
  exists xs ys,
    Plot.update (Plot.mkDataSink true
                   [("mydata", [ [[1;2];[10;20]] ; [[1;2];[30;40]] ])]%Q)
    = Ok (Some ("odmr", xs, ys)) /\
    Forall2 Qeq xs [1;2]%Q /\ Forall2 Qeq ys [20;30]%Q.
Proof.
  do 2 eexists; split; [reflexivity|].
  split; repeat constructor; apply Qeq_bool_iff; reflexivity.
Qed.

(* ------------------------------------------------------------------ *)
(** ** [np.linspace] *)

Lemma set_last_map_seq (f : nat -> Q) (k : nat) (x : Q) :
  Np.set_last (map f (seq 0 (S k))) x = (map f (seq 0 k) ++ [x])%list.
Proof.
  unfold Np.set_last; cbn [seq map].
  change (f 0%nat :: map f (seq 1 k)) with (map f (seq 0 (S k))).
  rewrite seq_S, map_app; cbn [map]; rewrite removelast_last; reflexivity.
Qed.

Lemma chain_map_seq_app (R : Q -> Q -> Prop) (g : nat -> Q) (z : Q) :
  forall k a,
    (forall i, (a <= i)%nat -> (S i < a + k)%nat -> R (g i) (g (S i))) ->
    ((0 < k)%nat -> R (g (a + k - 1)%nat) z) ->
    chain R (map g (seq a k) ++ [z])%list.
Proof.
  induction k as [|k IH]; intros a Hstep Hlast; cbn [seq map app].
  - exact I.
  - destruct k as [|k].
    + cbn; split; [|exact I].
      replace a with (a + 1 - 1)%nat at 1 by lia; apply Hlast; lia.
    + cbn [seq map app] in *.
      split.
      * apply Hstep; lia.
      * apply (IH (S a)).
        -- intros i Hi1 Hi2; apply Hstep; lia.
        -- intros _; replace (S a + S k - 1)%nat with (a + S (S k) - 1)%nat
             by lia; apply Hlast; lia.
Qed.

(** The points of [linspace] before the endpoint fix-up, whichever branch
    numpy takes, are [start + i * (stop - start) / (num - 1)]. *)
Lemma linspace_point (start stop : Q) (m : nat) :
  let div := Z.of_nat (S m) in
  let delta := (stop - start)%Q in
  let h :=
    if Qeq_bool (delta / inject_Z div) 0 then
      fun i => (i / inject_Z div * delta + start)%Q
    else fun i => (i * (delta / inject_Z div) + start)%Q in
  forall i : nat,
    h (inject_Z (Z.of_nat i)) == inject_Z (Z.of_nat i) * (delta / inject_Z div) + start.
Proof.
  cbv zeta; intro i.
  assert (Hd : ~ inject_Z (Z.of_nat (S m)) == 0).
  { intro H; change 0%Q with (inject_Z 0) in H.
    apply (proj1 (inject_Z_injective _ _)) in H; lia. }
  destruct (Qeq_bool _ _); [field; exact Hd | reflexivity].
Qed.

Lemma linspace_shape (start stop : Q) (m : nat) :
  exists g : nat -> Q,
    Np.linspace start stop (Z.of_nat (S (S m))) = Ok (map g (seq 0 (S m)) ++ [stop])%list /\
    forall i, g i == inject_Z (Z.of_nat i) * ((stop - start) / inject_Z (Z.of_nat (S m))) + start.
Proof.
  unfold Np.linspace.
  replace (Z.of_nat (S (S m)) <? 0)%Z with false by (symmetry; apply Z.ltb_ge; lia).
  replace (Z.of_nat (S (S m)) - 1)%Z with (Z.of_nat (S m)) by lia.
  replace (0 <? Z.of_nat (S m))%Z with true by (symmetry; apply Z.ltb_lt; lia).
  replace (1 <? Z.of_nat (S (S m)))%Z with true by (symmetry; apply Z.ltb_lt; lia).
  rewrite Nat2Z.id.
  pose proof (linspace_point start stop m) as Hp; cbv zeta in Hp.
  destruct (Qeq_bool ((stop - start) / inject_Z (Z.of_nat (S m))) 0) eqn:E.
  - eexists; split.
    + rewrite map_map, set_last_map_seq; reflexivity.
    + intro i; apply Hp.
  - eexists; split.
    + rewrite map_map, set_last_map_seq; reflexivity.
    + intro i; apply Hp.
Qed.

Lemma inject_Z_of_nat_S (i : nat) :
  inject_Z (Z.of_nat (S i)) == inject_Z (Z.of_nat i) + 1.
Proof. rewrite Nat2Z.inj_succ, <- Z.add_1_r, inject_Z_plus; reflexivity. Qed.

Lemma inject_Z_of_nat_S_pos (m : nat) : 0 < inject_Z (Z.of_nat (S m)).
Proof. unfold Qlt; cbn; lia. Qed.

(** C1 (corrected): for [num >= 2], [np.linspace(start, stop, num)] has
    [num] points, starts at [start] and ends exactly at [stop]; it is
    non-decreasing when [start <= stop] and non-increasing when
    [stop <= start]. *)
Theorem linspace_endpoints_monotone (start stop : Q) (num : Z)
    (Hn : (2 <= num)%Z) :
  exists y,
    Np.linspace start stop num = Ok y /\
    Z.of_nat (length y) = num /\
    hd 0 y == start /\
    last y 0 = stop /\
    (start <= stop -> chain Qle y) /\
    (stop <= start -> chain (fun a b => b <= a) y).
Proof.
  set (m := (Z.to_nat num - 2)%nat).
  replace num with (Z.of_nat (S (S m))) by (unfold m; lia).
  destruct (linspace_shape start stop m) as [g [Hy Hg]].
  set (c := inject_Z (Z.of_nat (S m))) in Hg.
  set (s := ((stop - start) / c)%Q) in Hg.
  assert (Hc : 0 < c) by apply inject_Z_of_nat_S_pos.
  assert (Hs : s * c == stop - start).
  { unfold s; field; intro H; rewrite H in Hc; discriminate. }
  assert (Hcm : c == inject_Z (Z.of_nat m) + 1) by apply inject_Z_of_nat_S.
  assert (Hstep : forall i, g (S i) == g i + s).
  { intro i; rewrite !Hg, inject_Z_of_nat_S; ring. }
  assert (Hlast : g m == stop - s).
  { rewrite Hg; rewrite Hcm in Hs; lra. }
  exists (map g (seq 0 (S m)) ++ [stop])%list; split; [exact Hy|].
  split; [rewrite length_app, length_map, length_seq; cbn; lia|].
  split; [cbn; rewrite Hg; cbn; ring|].
  split; [apply last_last|].
  split; intro Hle.
  - assert (Hs0 : 0 <= s).
    { unfold s; apply Qle_shift_div_l; [exact Hc|]; lra. }
    apply chain_map_seq_app.
    + intros i _ _; rewrite Hstep; lra.
    + intros _; replace (0 + S m - 1)%nat with m by lia; rewrite Hlast; lra.
  - assert (Hs0 : s <= 0).
    { unfold s; apply Qle_shift_div_r; [exact Hc|]; lra. }
    apply chain_map_seq_app.
    + intros i _ _; cbv beta; rewrite Hstep; lra.
    + intros _; replace (0 + S m - 1)%nat with m by lia; cbv beta;
        rewrite Hlast; lra.
Qed.

Lemma linspace_endpoints_monotone_witness :
  (2 <= 5)%Z /\
  exists y,
    Np.linspace 3 4 5 = Ok y /\
    Z.of_nat (length y) = 5%Z /\
    hd 0 y == 3 /\
    last y 0 = 4 /\
    (3 <= 4 -> chain Qle y) /\
    (4 <= 3 -> chain (fun a b => b <= a) y).
Proof. split; [lia | apply (linspace_endpoints_monotone 3 4 5); lia]. Defined.

(** C1 (counterexample): for [start = 2], [stop = 1], [num = 2] the
    sequence [linspace] returns is not non-decreasing. *)
Lemma linspace_decreasing_counterexample :
  ~ (exists y, Np.linspace 2 1 2 = Ok y /\ chain Qle y).
Proof.
  intros [y [Hy Hc]]; vm_compute in Hy; injection Hy as <-.
  destruct Hc as [H _]; vm_compute in H; apply H; reflexivity.
Qed.

Lemma linspace_length (start stop : Q) (num : Z) (y : Np.arr1) :
  Np.linspace start stop num = Ok y -> Z.of_nat (length y) = num.
Proof.
  unfold Np.linspace.
  destruct (num <? 0)%Z eqn:Hneg; [discriminate|].
  apply Z.ltb_ge in Hneg.
  intro H; injection H as <-.
  assert (Hl : forall l x, length (Np.set_last l x) = length l).
  { intros [|a l] x; [reflexivity|].
    unfold Np.set_last; rewrite length_app; cbn [length].
    assert (a :: l <> []) as Hne by discriminate.
    pose proof (app_removelast_last 0%Q Hne) as E.
    apply (f_equal (@length Q)) in E; rewrite length_app in E; cbn [length] in E.
    lia. }
  destruct (1 <? num)%Z; [rewrite Hl|];
    destruct (0 <? num - 1)%Z; try destruct (Qeq_bool _ _);
    rewrite !length_map, length_seq; lia.
Qed.

(* ------------------------------------------------------------------ *)
(** ** The sweep *)

Lemma bind_inv {S A B} (c : PyM S A) (k : A -> PyM S B) s r s' :
  bind c k s = (r, s') ->
  (exists e, c s = (Raise e, s') /\ r = Raise e) \/
  (exists a s1, c s = (Ok a, s1) /\ k a s1 = (r, s')).
Proof.
  unfold bind; destruct (c s) as [[a|e] s1]; intro H.
  - right; eauto.
  - left; injection H as <- <-; eauto.
Qed.

Lemma setitem_length (a : Np.arr1) (i : nat) (x : Q) a' :
  Np.setitem a i x = Ok a' -> length a' = length a.
Proof.
  revert i a'; induction a as [|h t IH]; intros [|i] a' H; cbn in H;
    try discriminate.
  - injection H as <-; reflexivity.
  - destruct (Np.setitem t i x) eqn:E; [|discriminate].
    injection H as <-; cbn; f_equal; eauto.
Qed.

Section SweepFacts.
Context {D : Type} (dr : Driver D).

Lemma call_inv {A} ev (c : PyM D A) w r w' :
  call ev c w = (r, w') -> trace w' = (trace w ++ [ev])%list.
Proof.
  unfold call; destruct (c (drv w)); intro H; injection H as _ <-; reflexivity.
Qed.

Lemma lift_inv {A} (x : result A) (w : world D) r w' :
  lift x w = (r, w') -> w' = w /\ r = x.
Proof.
  destruct x; cbn; intro H; injection H as <- <-; auto.
Qed.

Lemma sweep_points_inv (fs : Np.arr1) :
  forall f counts w r w',
    sweep_points dr fs f counts w = (r, w') ->
    exists evs, trace w' = (trace w ++ evs)%list /\
      Forall (drv_ev_in fs) evs /\
      (forall c, r = Ok c -> length c = length counts).
Proof.
  induction fs as [|q fs IH]; intros f counts w r w' H; cbn in H.
  - injection H as <- <-; exists []; rewrite app_nil_r; repeat split; auto.
    intros c Hc; injection Hc as <-; reflexivity.
  - apply bind_inv in H as [[e [H1 ->]] | [u [w1 [H1 H]]]].
    { apply call_inv in H1.
      exists [EvSetFrequency (Fin q)]; repeat split; auto.
      - repeat constructor; exists q; cbn; auto.
      - discriminate. }
    apply call_inv in H1.
    apply bind_inv in H as [[e [H2 ->]] | [c [w2 [H2 H]]]].
    { apply call_inv in H2.
      exists [EvSetFrequency (Fin q); EvCnts (1 # 100)].
      rewrite H2, H1, <- app_assoc; repeat split; auto.
      - repeat constructor; exists q; cbn; auto.
      - discriminate. }
    apply call_inv in H2.
    apply bind_inv in H as [[e [H3 ->]] | [counts' [w3 [H3 H]]]].
    { apply lift_inv in H3 as [-> _].
      exists [EvSetFrequency (Fin q); EvCnts (1 # 100)].
      rewrite H2, H1, <- app_assoc; repeat split; auto.
      - repeat constructor; exists q; cbn; auto.
      - discriminate. }
    apply lift_inv in H3 as [-> Ha].
    apply IH in H as [evs [Ht [Hf Hl]]].
    exists (EvSetFrequency (Fin q) :: EvCnts (1 # 100) :: evs).
    rewrite Ht, H2, H1, <- !app_assoc; repeat split.
    + constructor; [exists q; cbn; auto|].
      constructor; [reflexivity|].
      eapply Forall_impl; [|exact Hf].
      intros [] He; cbn in *; auto.
      destruct He as [q' [? ?]]; exists q'; auto.
    + intros c' Hc'; rewrite (Hl c' Hc').
      symmetry in Ha; apply setitem_length in Ha; exact Ha.
Qed.

Lemma pushes_app (w : world D) evs :
  flat_map (fun e => match e with EvPush _ r => [r] | _ => [] end)
    (trace w ++ evs)%list =
  (pushes w ++ flat_map (fun e => match e with EvPush _ r => [r] | _ => [] end) evs)%list.
Proof. unfold pushes; apply flat_map_app. Qed.

Lemma flat_map_no_push (evs : list event) :
  Forall not_push evs ->
  flat_map (fun e => match e with EvPush _ r => [r] | _ => [] end) evs = [].
Proof.
  induction 1 as [|e evs He _ IH]; [reflexivity|].
  destruct e; cbn in *; [..|contradiction]; exact IH.
Qed.

Lemma drv_ev_in_not_push fs e : drv_ev_in fs e -> not_push e /\ loop_event e.
Proof. destruct e; cbn; tauto. Qed.

Lemma stack1_ok rows a : Np.stack1 rows = Ok a -> a = rows.
Proof.
  destruct rows as [|r rs]; cbn; [discriminate|].
  destruct (forallb _ _); [|discriminate]; intro H; injection H as <-; reflexivity.
Qed.

Variables (dataset : string) (start stop : Q) (num_points iterations : Z).

Lemma iteration_inv (data : list Np.arr2) w r w' :
  iteration dr dataset start stop num_points iterations data w = (r, w') ->
  exists evs, trace w' = (trace w ++ evs)%list /\ Forall loop_event evs /\
    (forall e, r = Raise e -> Forall not_push evs) /\
    (forall data', r = Ok data' ->
       exists fs a evs0,
         Np.linspace start stop num_points = Ok fs /\ pass_array fs a /\
         data' = (data ++ [a])%list /\
         evs = (evs0 ++ [EvPush dataset (record start stop num_points iterations data')])%list /\
         Forall (drv_ev_in fs) evs0).
Proof.
  unfold iteration; intro H.
  apply bind_inv in H as [[e [H1 ->]] | [fs [w1 [H1 H]]]].
  { apply lift_inv in H1 as [-> _].
    exists []; rewrite app_nil_r; repeat split; auto; discriminate. }
  apply lift_inv in H1 as [-> Hfs]; symmetry in Hfs.
  apply bind_inv in H as [[e [H2 ->]] | [counts [w2 [H2 H]]]].
  { apply sweep_points_inv in H2 as [evs [Ht [Hf _]]].
    exists evs; repeat split; auto.
    - eapply Forall_impl; [|exact Hf]; intros; apply (drv_ev_in_not_push fs); auto.
    - intros; eapply Forall_impl; [|exact Hf]; intros; apply (drv_ev_in_not_push fs); auto.
    - discriminate. }
  apply sweep_points_inv in H2 as [evs [Ht [Hf Hl]]].
  specialize (Hl counts eq_refl).
  apply bind_inv in H as [[e [H3 ->]] | [a [w3 [H3 H]]]].
  { apply lift_inv in H3 as [-> _].
    exists evs; repeat split; auto.
    - eapply Forall_impl; [|exact Hf]; intros; apply (drv_ev_in_not_push fs); auto.
    - intros; eapply Forall_impl; [|exact Hf]; intros; apply (drv_ev_in_not_push fs); auto.
    - discriminate. }
  apply lift_inv in H3 as [-> Ha]; symmetry in Ha; apply stack1_ok in Ha.
  unfold bind, push, ret in H; cbn in H; injection H as <- <-; cbn.
  exists (evs ++ [EvPush dataset (record start stop num_points iterations (data ++ [a]))])%list.
  rewrite Ht, <- app_assoc; repeat split.
  - apply Forall_app; split; [|repeat constructor].
    eapply Forall_impl; [|exact Hf]; intros; apply (drv_ev_in_not_push fs); auto.
  - discriminate.
  - intros data' Hd; injection Hd as <-.
    exists fs, a, evs; repeat split; auto.
    exists counts; split; [exact Ha|].
    rewrite Hl; unfold Np.zeros; rewrite repeat_length.
    apply linspace_length in Hfs; lia.
Qed.

Lemma loop_inv n : forall data w r w',
  loop dr dataset start stop num_points iterations n data w = (r, w') ->
  exists evs, trace w' = (trace w ++ evs)%list /\ Forall loop_event evs.
Proof.
  induction n as [|n IH]; intros data w r w' H; cbn in H.
  - injection H as <- <-; exists []; rewrite app_nil_r; auto.
  - apply bind_inv in H as [[e [H1 ->]] | [d1 [w1 [H1 H]]]].
    + apply iteration_inv in H1 as [evs [Ht [Hl _]]]; eauto.
    + apply iteration_inv in H1 as [evs [Ht [Hl _]]].
      apply IH in H as [evs' [Ht' Hl']].
      exists (evs ++ evs')%list; rewrite Ht', Ht, app_assoc; split; auto.
      apply Forall_app; auto.
Qed.

Lemma loop_ok n : forall data w data' w',
  loop dr dataset start stop num_points iterations n data w = (Ok data', w') ->
  exists arrs,
    data' = (data ++ arrs)%list /\ length arrs = n /\
    Forall (fun a => exists fs, Np.linspace start stop num_points = Ok fs /\
                                pass_array fs a) arrs /\
    pushes w' = (pushes w ++ pushed_after start stop num_points iterations data arrs n)%list /\
    exists evs, trace w' = (trace w ++ evs)%list /\
      Forall (fun e => not_push e ->
                exists fs, Np.linspace start stop num_points = Ok fs /\
                           drv_ev_in fs e) evs.
Proof.
  induction n as [|n IH]; intros data w data' w' H; cbn in H.
  - injection H as <- <-; exists []; rewrite !app_nil_r; repeat split; auto.
    exists []; rewrite app_nil_r; auto.
  - apply bind_inv in H as [[e [H1 Hr]] | [d1 [w1 [H1 H]]]]; [discriminate|].
    apply iteration_inv in H1 as [evs [Ht [_ [_ Hok]]]].
    destruct (Hok d1 eq_refl) as [fs [a [evs0 [Hfs [Ha [-> [-> Hf]]]]]]].
    apply IH in H as [arrs [-> [Hlen [Hall [Hp [evs' [Ht' Hf']]]]]]].
    exists (a :: arrs); repeat split.
    + rewrite <- app_assoc; reflexivity.
    + cbn; rewrite Hlen; reflexivity.
    + constructor; eauto.
    + rewrite Hp; unfold pushes at 1; rewrite Ht, pushes_app, flat_map_app,
        flat_map_no_push by (eapply Forall_impl; [|exact Hf];
                             intros; apply (drv_ev_in_not_push fs); auto).
      cbn; rewrite <- !app_assoc; cbn; f_equal.
      unfold pushed_after; cbn [seq map firstn].
      rewrite <- (seq_shift n 1), map_map.
      f_equal; apply map_ext; intro k; cbn [firstn]; rewrite <- app_assoc; reflexivity.
    + exists ((evs0 ++ [EvPush dataset (record start stop num_points iterations (data ++ [a]))]) ++ evs')%list.
      rewrite Ht', Ht, <- !app_assoc; split; [reflexivity|].
      rewrite !Forall_app; split; [|split].
      * eapply Forall_impl; [|exact Hf]; intros; eauto.
      * repeat constructor; intro C; contradiction.
      * exact Hf'.
Qed.

Lemma loop_raise n : forall data w e w',
  loop dr dataset start stop num_points iterations n data w = (Raise e, w') ->
  exists k data1 w1 evs,
    (k < n)%nat /\
    loop dr dataset start stop num_points iterations k data w = (Ok data1, w1) /\
    iteration dr dataset start stop num_points iterations data1 w1 = (Raise e, w') /\
    trace w' = (trace w1 ++ evs)%list /\ Forall not_push evs.
Proof.
  induction n as [|n IH]; intros data w e w' H; cbn in H; [discriminate|].
  apply bind_inv in H as [[e' [H1 He]] | [d1 [w1 [H1 H]]]].
  - injection He as He; subst e'.
    pose proof H1 as H1'.
    apply iteration_inv in H1 as [evs [Ht [_ [Hr _]]]].
    exists 0%nat, data, w, evs; repeat split; auto; [lia|].
    apply (Hr _ eq_refl).
  - apply IH in H as [k [data1 [w2 [evs [Hk [Hl [Hi [Ht Hn]]]]]]]].
    exists (S k), data1, w2, evs; repeat split; auto; [lia|].
    cbn; unfold bind at 1; rewrite H1; exact Hl.
Qed.

End SweepFacts.

Lemma mydata_of_record start stop num_points iterations (data : list Np.arr2) :
  mydata_of (record start stop num_points iterations data) = Some data.
Proof.
  unfold mydata_of; cbn.
  induction data as [|a data IH]; cbn in *; [reflexivity|].
  rewrite IH; reflexivity.
Qed.

Lemma pass_array_shape start stop num_points fs a :
  Np.linspace start stop num_points = Ok fs -> pass_array fs a ->
  shape_2xn num_points a.
Proof.
  intros Hfs [counts [-> Hl]]; apply linspace_length in Hfs.
  split; [reflexivity|].
  repeat constructor; [rewrite length_map|rewrite Hl]; exact Hfs.
Qed.

Lemma prologue_ok {D} (dr : Driver D) (d0 : D) w :
  prologue dr (mkWorld d0 []) = (Ok tt, w) ->
  trace w = [EvSetAmplitude (Fin (13 # 2)); EvSetOutputEn true].
Proof.
  unfold prologue; intro H.
  apply bind_inv in H as [[e [_ Hr]] | [u [w1 [H1 H]]]]; [discriminate|].
  apply call_inv in H1; apply call_inv in H; rewrite H, H1; reflexivity.
Qed.

(** C4: in a run of [odmr_sweep] that completes, one record is pushed
    per iteration; the [k]-th one is the dictionary with keys [params],
    [title], [xlabel], [ylabel], [datasets], whose
    [datasets['mydata']] is the list of the first [k] arrays, one per
    iteration in order, each of shape 2 x [num_points]. *)
Theorem odmr_sweep_pushes_history {D} (dr : Driver D) (d0 : D)
    (dataset : string) (start stop : Q) (num_points iterations : Z)
    (w : world D)
    (Hrun : odmr_sweep dr dataset start stop num_points iterations
              (mkWorld d0 []) = (Ok tt, w)) :
  exists arrs : list Np.arr2,
    length arrs = Z.to_nat iterations /\
    Forall (shape_2xn num_points) arrs /\
    length (pushes w) = Z.to_nat iterations /\
    pushes w = map (fun k => record start stop num_points iterations
                               (firstn k arrs))
                   (seq 1 (Z.to_nat iterations)) /\
    Forall (fun r => keys r = ["params"; "title"; "xlabel"; "ylabel"; "datasets"])
           (pushes w) /\
    (forall k, (1 <= k <= Z.to_nat iterations)%nat ->
       exists r, nth_error (pushes w) (k - 1) = Some r /\
                 mydata_of r = Some (firstn k arrs)).
Proof.
  unfold odmr_sweep in Hrun.
  apply bind_inv in Hrun as [[e [_ Hr]] | [u [wp [Hp H]]]]; [discriminate|].
  destruct u; apply prologue_ok in Hp.
  apply bind_inv in H as [[e [_ Hr]] | [data [w1 [Hl H]]]]; [discriminate|].
  unfold ret in H; injection H as <-.
  apply loop_ok in Hl as [arrs [_ [Hlen [Hall [Hpush _]]]]].
  assert (Hp0 : pushes wp = []) by (unfold pushes; rewrite Hp; reflexivity).
  rewrite Hp0 in Hpush; cbn in Hpush; unfold pushed_after in Hpush.
  exists arrs; repeat split.
  - exact Hlen.
  - eapply Forall_impl; [|exact Hall].
    intros a [fs [Hfs Ha]]; eapply pass_array_shape; eauto.
  - rewrite Hpush, length_map, length_seq; reflexivity.
  - exact Hpush.
  - rewrite Hpush, Forall_map; apply Forall_forall; intros; reflexivity.
  - intros k Hk; rewrite Hpush, nth_error_map, nth_error_seq.
    replace (k - 1 <? Z.to_nat iterations)%nat with true
      by (symmetry; apply Nat.ltb_lt; lia).
    eexists; split; [reflexivity|].
    replace (1 + (k - 1))%nat with k by lia.
    apply mydata_of_record.
Qed.

(** C7: every run of [odmr_sweep], whatever its outcome, first issues
    [set_amplitude(6.5)]; if the driver accepts it, the next call is
    [set_output_en(True)], and every later event is a [set_frequency],
    a [cnts] or a [push]: neither setting is commanded again. *)
Theorem odmr_sweep_prologue_once {D} (dr : Driver D) (d0 : D)
    (dataset : string) (start stop : Q) (num_points iterations : Z) :
  exists rest,
    trace (snd (odmr_sweep dr dataset start stop num_points iterations
                  (mkWorld d0 []))) = EvSetAmplitude (Fin (13 # 2)) :: rest /\
    match fst (set_amplitude dr (Fin (13 # 2)) d0) with
    | Raise _ => rest = []
    | Ok _ => exists evs, rest = EvSetOutputEn true :: evs /\
                          Forall loop_event evs
    end.
Proof.
  unfold odmr_sweep, prologue, drv_set_amplitude, drv_set_output_en, call,
    bind at 1 2; cbn.
  destruct (set_amplitude dr (Fin (13 # 2)) d0) as [[u|e] d1]; cbn.
  2: { eexists; split; reflexivity. }
  destruct (set_output_en dr true d1) as [[u'|e] d2]; cbn.
  2: { eexists; split; [reflexivity|]. exists []; auto. }
  unfold bind.
  destruct (loop dr dataset start stop num_points iterations
              (Z.to_nat iterations) [] (mkWorld d2 [EvSetAmplitude (Fin (13 # 2));
                                                  EvSetOutputEn true]))
    as [r w'] eqn:El.
  apply loop_inv in El as [evs [Ht Hf]]; cbn in Ht.
  destruct r; cbn; rewrite Ht; eexists; (split; [reflexivity|]); eauto.
Qed.

Lemma loop_add {D} (dr : Driver D) dataset start stop num_points iterations k m :
  forall data w,
  loop dr dataset start stop num_points iterations (k + m) data w =
  match loop dr dataset start stop num_points iterations k data w with
  | (Ok d, w') => loop dr dataset start stop num_points iterations m d w'
  | (Raise e, w') => (Raise e, w')
  end.
Proof.
  induction k as [|k IH]; intros data w; [reflexivity|].
  cbn [Nat.add loop]; unfold bind.
  destruct (iteration dr dataset start stop num_points iterations data w)
    as [[d1|e] w1]; [apply IH|reflexivity].
Qed.

Lemma sweep_points_app {D} (dr : Driver D) (l1 l2 : Np.arr1) :
  forall f counts w,
  sweep_points dr (l1 ++ l2)%list f counts w =
  match sweep_points dr l1 f counts w with
  | (Ok c, w') => sweep_points dr l2 (f + length l1) c w'
  | (Raise e, w') => (Raise e, w')
  end.
Proof.
  induction l1 as [|q l1 IH]; intros f counts w.
  - cbn; rewrite Nat.add_0_r; reflexivity.
  - cbn [app sweep_points length]; unfold bind.
    destruct (drv_set_frequency dr (Fin q) w) as [[[]|e] w1]; [|reflexivity].
    unfold bind.
    destruct (drv_cnts dr (1 # 100) w1) as [[c|e] w2]; [|reflexivity].
    unfold bind.
    destruct (lift (Np.setitem counts f c) w2) as [[c'|e] w3]; [|reflexivity].
    rewrite IH; replace (f + S (length l1))%nat with (S f + length l1)%nat by lia.
    reflexivity.
Qed.

Lemma pushes_after_driver_events {D} (w : world D) (d : D) evs :
  Forall not_push evs -> pushes (mkWorld d (trace w ++ evs)%list) = pushes w.
Proof.
  intro H; unfold pushes at 1; cbn [trace]; rewrite pushes_app, flat_map_no_push by exact H.
  apply app_nil_r.
Qed.

(** C8: [odmr_sweep] catches no error a driver call raises.  If
    [set_amplitude(6.5)] or [set_output_en(True)] raises, the run raises
    the same exception right there.  If, after [k < iterations]
    completed passes (which pushed exactly [k] records), the pass in
    progress has swept the points [pre] and then [set_frequency] or
    [cnts] raises at the next point [x], the run raises that same
    exception with that call as the last thing it did: no further
    driver call, no retry, and no record pushed beyond the [k] already
    pushed. *)
Theorem odmr_sweep_driver_error_propagates {D} (dr : Driver D) (d0 : D)
    (dataset : string) (start stop : Q) (num_points iterations : Z) :
  (forall e d1,
     set_amplitude dr (Fin (13 # 2)) d0 = (Raise e, d1) ->
     odmr_sweep dr dataset start stop num_points iterations (mkWorld d0 []) =
       (Raise e, mkWorld d1 [EvSetAmplitude (Fin (13 # 2))])) /\
  (forall e d1 d2,
     set_amplitude dr (Fin (13 # 2)) d0 = (Ok tt, d1) ->
     set_output_en dr true d1 = (Raise e, d2) ->
     odmr_sweep dr dataset start stop num_points iterations (mkWorld d0 []) =
       (Raise e, mkWorld d2 [EvSetAmplitude (Fin (13 # 2)); EvSetOutputEn true])) /\
  (forall wp k data w1 pre x post c w2,
     prologue dr (mkWorld d0 []) = (Ok tt, wp) ->
     (k < Z.to_nat iterations)%nat ->
     loop dr dataset start stop num_points iterations k [] wp = (Ok data, w1) ->
     Np.linspace start stop num_points = Ok (pre ++ x :: post)%list ->
     sweep_points dr pre 0 (Np.zeros num_points) w1 = (Ok c, w2) ->
     (exists arrs, length arrs = k /\
        pushes w1 = pushed_after start stop num_points iterations [] arrs k) /\
     (forall e d3,
        set_frequency dr (Fin x) (drv w2) = (Raise e, d3) ->
        odmr_sweep dr dataset start stop num_points iterations (mkWorld d0 []) =
          (Raise e, mkWorld d3 (trace w2 ++ [EvSetFrequency (Fin x)])%list) /\
        pushes (mkWorld d3 (trace w2 ++ [EvSetFrequency (Fin x)])%list) = pushes w1) /\
     (forall e d3 d4,
        set_frequency dr (Fin x) (drv w2) = (Ok tt, d3) ->
        cnts dr (1 # 100) d3 = (Raise e, d4) ->
        odmr_sweep dr dataset start stop num_points iterations (mkWorld d0 []) =
          (Raise e, mkWorld d4 (trace w2 ++ [EvSetFrequency (Fin x); EvCnts (1 # 100)])%list) /\
        pushes (mkWorld d4 (trace w2 ++ [EvSetFrequency (Fin x); EvCnts (1 # 100)])%list)
          = pushes w1)).
Proof.
  split; [|split].
  - intros e d1 H1; unfold odmr_sweep, prologue, bind, drv_set_amplitude, call.
    cbn [drv trace]; rewrite H1; reflexivity.
  - intros e d1 d2 H1 H2; unfold odmr_sweep, prologue, bind,
      drv_set_amplitude, drv_set_output_en, call.
    cbn [drv trace]; rewrite H1; cbn [drv trace]; rewrite H2; reflexivity.
  - intros wp k data w1 pre x post c w2 Hp Hk Hl Hfs Hpre.
    assert (Hp0 : pushes wp = []).
    { apply prologue_ok in Hp; unfold pushes; rewrite Hp; reflexivity. }
    assert (Hpw2 : pushes w2 = pushes w1).
    { destruct (sweep_points_inv dr pre 0 (Np.zeros num_points) w1 _ _ Hpre)
        as [evs [Ht [Hevs _]]].
      destruct w2 as [dw2 tw2]; cbn [trace] in Ht; subst tw2.
      unfold pushes at 1; cbn [trace]; rewrite pushes_app, flat_map_no_push;
        [apply app_nil_r|].
      revert Hevs; apply Forall_impl; intros ev Hev; apply (drv_ev_in_not_push _ _ Hev). }
    assert (Hrun : forall r w',
      sweep_points dr (x :: post) (0 + length pre) c w2 = (Raise r, w') ->
      odmr_sweep dr dataset start stop num_points iterations (mkWorld d0 []) = (Raise r, w')).
    { intros r w' Hx.
      unfold odmr_sweep; unfold bind at 1; rewrite Hp.
      replace (Z.to_nat iterations) with (k + S (Z.to_nat iterations - S k))%nat by lia.
      unfold bind at 1; rewrite loop_add, Hl.
      cbn [loop]; unfold bind at 1, iteration.
      unfold bind at 1; rewrite Hfs; cbn [lift ret].
      unfold bind at 1; rewrite sweep_points_app, Hpre, Hx; reflexivity. }
    split; [|split].
    + destruct (loop_ok dr dataset start stop num_points iterations k [] wp data w1 Hl)
        as [arrs [_ [Harrs [_ [Hpush _]]]]].
      exists arrs; split; [exact Harrs|]; rewrite Hpush, Hp0; reflexivity.
    + intros e d3 H3.
      assert (Hx : sweep_points dr (x :: post) (0 + length pre) c w2 =
                   (Raise e, mkWorld d3 (trace w2 ++ [EvSetFrequency (Fin x)])%list)).
      { cbn [sweep_points]; unfold bind at 1, drv_set_frequency, call; rewrite H3.
        reflexivity. }
      split; [exact (Hrun _ _ Hx)|].
      rewrite <- Hpw2; apply (pushes_after_driver_events w2 _); repeat constructor.
    + intros e d3 d4 H3 H4.
      assert (Hx : sweep_points dr (x :: post) (0 + length pre) c w2 =
                   (Raise e, mkWorld d4 (trace w2 ++ [EvSetFrequency (Fin x);
                                                     EvCnts (1 # 100)])%list)).
      { cbn [sweep_points]; unfold bind at 1, drv_set_frequency, call; rewrite H3.
        unfold bind at 1, drv_cnts, call; cbn [drv trace]; rewrite H4.
        rewrite <- app_assoc; reflexivity. }
      split; [exact (Hrun _ _ Hx)|].
      rewrite <- Hpw2; apply (pushes_after_driver_events w2 _); repeat constructor.
Qed.

Lemma linspace_one (start stop : Q) :
  Np.linspace start stop 1 = Ok [inject_Z 0 * (stop - start) + start].
Proof. reflexivity. Qed.

Lemma Forall_firstn {A} (P : A -> Prop) (l : list A) k :
  Forall P l -> Forall P (firstn k l).
Proof.
  intro H; rewrite <- (firstn_skipn k l) in H; apply Forall_app in H; apply H.
Qed.

(** C10: with [num_points = 1], [linspace] yields the single point
    [start]; in a completed run every [set_frequency] is issued at
    [start] (never at [stop], unless they coincide) and every pushed
    array is [[start/1e9], [c]] for the count [c] read there. *)
Theorem odmr_sweep_single_point {D} (dr : Driver D) (d0 : D)
    (dataset : string) (start stop : Q) (iterations : Z) (w : world D)
    (Hrun : odmr_sweep dr dataset start stop 1 iterations
              (mkWorld d0 []) = (Ok tt, w)) :
  (exists y, Np.linspace start stop 1 = Ok [y] /\ y == start) /\
  Forall (fun e => match e with
                   | EvSetFrequency v => exists q, v = Fin q /\ q == start
                   | _ => True
                   end) (trace w) /\
  Forall (fun r => exists arrs, mydata_of r = Some arrs /\
            Forall (fun a => exists x c, a = [[x]; [c]] /\
                               x == start / (1000000000 # 1)) arrs)
         (pushes w).
Proof.
  set (y0 := (inject_Z 0 * (stop - start) + start)%Q).
  assert (Hy0 : y0 == start) by (unfold y0; ring).
  split; [exists y0; split; [apply linspace_one | exact Hy0]|].
  unfold odmr_sweep in Hrun.
  apply bind_inv in Hrun as [[e [_ Hr]] | [u [wp [Hp H]]]]; [discriminate|].
  destruct u; apply prologue_ok in Hp.
  apply bind_inv in H as [[e [_ Hr]] | [data [w1 [Hl H]]]]; [discriminate|].
  unfold ret in H; injection H as <-.
  apply loop_ok in Hl as [arrs [_ [_ [Hall [Hpush [evs [Ht Hev]]]]]]].
  split.
  - rewrite Ht, Hp; repeat constructor.
    eapply Forall_impl; [|exact Hev]; intros [] He; auto.
    destruct (He I) as [fs [Hfs [q [-> Hq]]]].
    rewrite linspace_one in Hfs; injection Hfs as <-.
    destruct Hq as [<-|[]]; exists y0; auto.
  - assert (Hp0 : pushes wp = []) by (unfold pushes; rewrite Hp; reflexivity).
    rewrite Hpush, Hp0; cbn; unfold pushed_after.
    rewrite Forall_map; apply Forall_forall; intros k _.
    exists (firstn k arrs); split; [apply mydata_of_record|].
    apply Forall_firstn; eapply Forall_impl; [|exact Hall].
    intros a [fs [Hfs [counts [-> Hc]]]].
    rewrite linspace_one in Hfs; injection Hfs as <-.
    destruct counts as [|c [|]]; cbn in Hc; try discriminate.
    exists (y0 / (1000000000 # 1))%Q, c; split; [reflexivity|].
    unfold Qdiv; rewrite Hy0; reflexivity.
Qed.

(** C5: [odmr_sweep('odmr', 3e9, 4e9, 5, 1)] against a driver whose
    setters accept these values and whose [cnts(0.01)] always reads [10]
    completes and pushes exactly one record, whose
    [datasets['mydata']] holds the single array
    [[3.0, 3.25, 3.5, 3.75, 4.0], [10, 10, 10, 10, 10]]. *)
Theorem odmr_sweep_example_const10 {D} (dr : Driver D) (d0 : D)
    (Hamp : forall d, exists d', set_amplitude dr (Fin (13 # 2)) d = (Ok tt, d'))
    (Hout : forall d, exists d', set_output_en dr true d = (Ok tt, d'))
    (Hfreq : forall q d, (100000 # 1 <= q <= 10000000000 # 1)%Q ->
               exists d', set_frequency dr (Fin q) d = (Ok tt, d'))
    (Hcnts : forall d, exists d', cnts dr (1 # 100) d = (Ok (10 # 1), d')) :
  exists w a,
    odmr_sweep dr "odmr" (3000000000 # 1) (4000000000 # 1) 5 1
      (mkWorld d0 []) = (Ok tt, w) /\
    pushes w = [record (3000000000 # 1) (4000000000 # 1) 5 1 [a]] /\
    mydata_of (record (3000000000 # 1) (4000000000 # 1) 5 1 [a]) = Some [a] /\
    Forall2 (Forall2 Qeq) a
      [[3; 13 # 4; 7 # 2; 15 # 4; 4]; [10; 10; 10; 10; 10]]%Q.
Proof.
  destruct dr as [sa so sf cn]; cbn in *.
  vm_compute.
  repeat match goal with
  | |- context [sa _ ?d] =>
      let d' := fresh "d" in destruct (Hamp d) as [d' ->]; vm_compute
  | |- context [so true ?d] =>
      let d' := fresh "d" in destruct (Hout d) as [d' ->]; vm_compute
  | |- context [sf (Fin ?q) ?d] =>
      let d' := fresh "d" in
      destruct (Hfreq q d) as [d' ->];
      [split; apply Qle_bool_imp_le; reflexivity | vm_compute]
  | |- context [cn _ ?d] =>
      let d' := fresh "d" in destruct (Hcnts d) as [d' ->]; vm_compute
  end.
  do 2 eexists; split; [reflexivity|].
  split; [reflexivity|]; split; [reflexivity|].
  repeat constructor; apply Qeq_bool_iff; reflexivity.
Qed.

(* ------------------------------------------------------------------ *)
(** ** Concrete runs *)

Lemma const10_drv_accepts :
  (forall d, exists d', set_amplitude const10_drv (Fin (13 # 2)) d = (Ok tt, d')) /\
  (forall d, exists d', set_output_en const10_drv true d = (Ok tt, d')) /\
  (forall q d, (100000 # 1 <= q <= 10000000000 # 1)%Q ->
     exists d', set_frequency const10_drv (Fin q) d = (Ok tt, d')) /\
  (forall d, exists d', cnts const10_drv (1 # 100) d = (Ok (10 # 1), d')).
Proof.
  repeat split; intros; try (eexists; reflexivity).
  destruct H as [H1 H2]; eexists; cbn; unfold SG.set_frequency; cbn.
  rewrite (proj2 (Qle_bool_iff _ _) H1), (proj2 (Qle_bool_iff _ _) H2).
  reflexivity.
Qed.

Lemma odmr_sweep_pushes_history_witness :
  odmr_sweep const10_drv "odmr" (3000000000 # 1) (4000000000 # 1) 5 3
    (mkWorld SG.init []) = (Ok tt, snd demo_run) /\
  exists arrs : list Np.arr2,
    length arrs = Z.to_nat 3 /\
    Forall (shape_2xn 5) arrs /\
    length (pushes (snd demo_run)) = Z.to_nat 3 /\
    pushes (snd demo_run) =
      map (fun k => record (3000000000 # 1) (4000000000 # 1) 5 3 (firstn k arrs))
          (seq 1 (Z.to_nat 3)) /\
    Forall (fun r => keys r = ["params"; "title"; "xlabel"; "ylabel"; "datasets"])
           (pushes (snd demo_run)) /\
    (forall k, (1 <= k <= Z.to_nat 3)%nat ->
       exists r, nth_error (pushes (snd demo_run)) (k - 1) = Some r /\
                 mydata_of r = Some (firstn k arrs)).
Proof.
  assert (H : odmr_sweep const10_drv "odmr" (3000000000 # 1) (4000000000 # 1) 5 3
                (mkWorld SG.init []) = (Ok tt, snd demo_run))
    by (vm_compute; reflexivity).
  split; [exact H|].
  exact (odmr_sweep_pushes_history const10_drv SG.init "odmr" _ _ 5 3 _ H).
Defined.

Lemma odmr_sweep_driver_error_propagates_witness :
  exists e d3,
    set_frequency const10_drv (Fin (46000000000 # 4))
      (drv (snd (sweep_points const10_drv [12000000000 # 4; 29000000000 # 4] 0
                   (Np.zeros 5) (snd (prologue const10_drv (mkWorld SG.init [])))))) =
      (Raise e, d3) /\
    odmr_sweep const10_drv "odmr" (3000000000 # 1) (20000000000 # 1) 5 2
      (mkWorld SG.init []) =
      (Raise e, mkWorld d3
         (trace (snd (sweep_points const10_drv [12000000000 # 4; 29000000000 # 4] 0
                        (Np.zeros 5) (snd (prologue const10_drv (mkWorld SG.init []))))) ++
          [EvSetFrequency (Fin (46000000000 # 4))])%list) /\
    pushes (mkWorld d3
         (trace (snd (sweep_points const10_drv [12000000000 # 4; 29000000000 # 4] 0
                        (Np.zeros 5) (snd (prologue const10_drv (mkWorld SG.init []))))) ++
          [EvSetFrequency (Fin (46000000000 # 4))])%list) =
    pushes (snd (prologue const10_drv (mkWorld SG.init []))).
Proof.
  destruct (odmr_sweep_driver_error_propagates const10_drv SG.init "odmr"
              (3000000000 # 1) (20000000000 # 1) 5 2) as [_ [_ H]].
  assert (Hp : prologue const10_drv (mkWorld SG.init []) =
               (Ok tt, snd (prologue const10_drv (mkWorld SG.init []))))
    by (vm_compute; reflexivity).
  assert (Hk : (0 < Z.to_nat 2)%nat) by (cbn; lia).
  assert (Hl : loop const10_drv "odmr" (3000000000 # 1) (20000000000 # 1) 5 2 0 []
                 (snd (prologue const10_drv (mkWorld SG.init []))) =
               (Ok [], snd (prologue const10_drv (mkWorld SG.init []))))
    by reflexivity.
  assert (Hfs : Np.linspace (3000000000 # 1) (20000000000 # 1) 5 =
                Ok ([12000000000 # 4; 29000000000 # 4] ++
                    (46000000000 # 4) :: [63000000000 # 4; 20000000000 # 1])%list)
    by (vm_compute; reflexivity).
  assert (Hpre : sweep_points const10_drv [12000000000 # 4; 29000000000 # 4] 0
                   (Np.zeros 5) (snd (prologue const10_drv (mkWorld SG.init []))) =
                 (Ok [10 # 1; 10 # 1; 0; 0; 0],
                  snd (sweep_points const10_drv [12000000000 # 4; 29000000000 # 4] 0
                         (Np.zeros 5) (snd (prologue const10_drv (mkWorld SG.init []))))))
    by (vm_compute; reflexivity).
  destruct (H _ _ _ _ _ _ _ _ _ Hp Hk Hl Hfs Hpre) as [_ [Hset _]].
  assert (H3 : set_frequency const10_drv (Fin (46000000000 # 4))
      (drv (snd (sweep_points const10_drv [12000000000 # 4; 29000000000 # 4] 0
                   (Np.zeros 5) (snd (prologue const10_drv (mkWorld SG.init [])))))) =
      (Raise (ValueError "Frequency must be in range [100kHz, 10GHz]."),
       drv (snd (sweep_points const10_drv [12000000000 # 4; 29000000000 # 4] 0
                   (Np.zeros 5) (snd (prologue const10_drv (mkWorld SG.init [])))))))
    by (vm_compute; reflexivity).
  do 2 eexists; split; [exact H3|].
  exact (Hset _ _ H3).
Defined.

Lemma odmr_sweep_single_point_witness :
  odmr_sweep const10_drv "odmr" (3000000000 # 1) (4000000000 # 1) 1 2
    (mkWorld SG.init []) = (Ok tt, snd demo_single) /\
  (exists y, Np.linspace (3000000000 # 1) (4000000000 # 1) 1 = Ok [y] /\
             y == 3000000000 # 1) /\
  Forall (fun e => match e with
                   | EvSetFrequency v => exists q, v = Fin q /\ q == 3000000000 # 1
                   | _ => True
                   end) (trace (snd demo_single)) /\
  Forall (fun r => exists arrs, mydata_of r = Some arrs /\
            Forall (fun a => exists x c, a = [[x]; [c]] /\
                       x == (3000000000 # 1) / (1000000000 # 1)) arrs)
         (pushes (snd demo_single)).
Proof.
  assert (H : odmr_sweep const10_drv "odmr" (3000000000 # 1) (4000000000 # 1) 1 2
                (mkWorld SG.init []) = (Ok tt, snd demo_single))
    by (vm_compute; reflexivity).
  split; [exact H|].
  exact (odmr_sweep_single_point const10_drv SG.init "odmr" _ _ 2 _ H).
Defined.

Lemma odmr_sweep_example_const10_witness :
  ((forall d, exists d', set_amplitude const10_drv (Fin (13 # 2)) d = (Ok tt, d')) /\
   (forall d, exists d', set_output_en const10_drv true d = (Ok tt, d')) /\
   (forall q d, (100000 # 1 <= q <= 10000000000 # 1)%Q ->
      exists d', set_frequency const10_drv (Fin q) d = (Ok tt, d')) /\
   (forall d, exists d', cnts const10_drv (1 # 100) d = (Ok (10 # 1), d'))) /\
  exists w a,
    odmr_sweep const10_drv "odmr" (3000000000 # 1) (4000000000 # 1) 5 1
      (mkWorld SG.init []) = (Ok tt, w) /\
    pushes w = [record (3000000000 # 1) (4000000000 # 1) 5 1 [a]] /\
    mydata_of (record (3000000000 # 1) (4000000000 # 1) 5 1 [a]) = Some [a] /\
    Forall2 (Forall2 Qeq) a
      [[3; 13 # 4; 7 # 2; 15 # 4; 4]; [10; 10; 10; 10; 10]]%Q.
Proof.
  split; [exact const10_drv_accepts|].
  destruct const10_drv_accepts as [Ha [Ho [Hf Hc]]].
  exact (odmr_sweep_example_const10 const10_drv SG.init Ha Ho Hf Hc).
Defined.

(* ================================================================== *)
(** * Further properties of the code *)

(* ------------------------------------------------------------------ *)
(** ** [SigGen] *)

Lemma exec_call_output_en (c : SG.call) (s : SG.SigGen) :
  SG.output_en (SG.exec_call c s) = SG.output_en s.
Proof.
  destruct c as [v|v| | |]; cbn; try reflexivity.
  - unfold SG.set_frequency; destruct (_ || _); reflexivity.
  - unfold SG.set_amplitude; destruct (_ || _); reflexivity.
Qed.

(** No method of [SigGen] writes [output_en]: after any sequence of calls
    (returned or raised) it is what it was, [False] for a fresh object. *)
Theorem siggen_output_en_never_changes (cs : list SG.call) (s : SG.SigGen) :
  SG.output_en (SG.exec_calls cs s) = SG.output_en s /\
  SG.output_en (SG.exec_calls cs SG.init) = false.
Proof.
  assert (H : forall s, SG.output_en (SG.exec_calls cs s) = SG.output_en s).
  { induction cs as [|c cs IH]; intro s'; [reflexivity|].
    cbn; rewrite IH; apply exec_call_output_en. }
  split; [apply H | rewrite H; reflexivity].
Qed.

(** Each method touches at most its own attribute: [set_frequency] never
    changes the amplitude or [output_en], [set_amplitude] never changes
    the frequency or [output_en] (whether they return or raise); the
    getters return the stored value and, like [calibrate], change
    nothing. *)
Theorem siggen_call_frame (v : pyfloat) (s : SG.SigGen) :
  SG._amplitude (snd (SG.set_frequency v s)) = SG._amplitude s /\
  SG.output_en (snd (SG.set_frequency v s)) = SG.output_en s /\
  SG._frequency (snd (SG.set_amplitude v s)) = SG._frequency s /\
  SG.output_en (snd (SG.set_amplitude v s)) = SG.output_en s /\
  SG.frequency s = (Ok (SG._frequency s), s) /\
  SG.amplitude s = (Ok (SG._amplitude s), s) /\
  SG.calibrate s = (Ok tt, s).
Proof.
  unfold SG.set_frequency, SG.set_amplitude.
  destruct (py_lt v f_100e3 || py_gt v f_10e9), (py_lt v f_m30 || py_gt v f_10);
    repeat split.
Qed.

(** From a fresh [SigGen], every sequence of calls whose arguments are
    not NaN keeps the amplitude in [-30, 10] and the frequency in
    [100e3, 10e9], whether the calls return or raise. *)
Theorem siggen_range_inv_nan_free (cs : list SG.call) :
  Forall call_nan_free cs -> SG.range_inv (SG.exec_calls cs SG.init).
Proof.
  assert (Hinit : SG.range_inv SG.init) by (vm_compute; split; split; congruence).
  revert Hinit; generalize SG.init.
  induction cs as [|c cs IH]; intros s Hs Hcs; [exact Hs|].
  inversion Hcs as [|? ? Hc Hcs']; subst.
  cbn; apply IH; [|exact Hcs'].
  apply exec_call_range_inv; [|exact Hs].
  intros v [-> | ->]; exact Hc.
Qed.

Lemma siggen_range_inv_nan_free_witness :
  Forall call_nan_free [SG.CSetFrequency PInf; SG.CSetAmplitude (Fin 3);
                        SG.CSetFrequency (Fin (3000000000 # 1)); SG.CCalibrate] /\
  SG.range_inv (SG.exec_calls [SG.CSetFrequency PInf; SG.CSetAmplitude (Fin 3);
                               SG.CSetFrequency (Fin (3000000000 # 1));
                               SG.CCalibrate] SG.init).
Proof.
  assert (H : Forall call_nan_free [SG.CSetFrequency PInf; SG.CSetAmplitude (Fin 3);
                SG.CSetFrequency (Fin (3000000000 # 1)); SG.CCalibrate])
    by (repeat constructor; discriminate).
  split; [exact H | exact (siggen_range_inv_nan_free _ H)].
Defined.

(* ------------------------------------------------------------------ *)
(** ** [np.linspace] *)

Lemma linspace_edge_cases_aux (start stop : Q) :
  (forall num, (num < 0)%Z ->
     exists msg, Np.linspace start stop num = Raise (ValueError msg)) /\
  Np.linspace start stop 0 = Ok [] /\
  (exists y, Np.linspace start stop 1 = Ok [y] /\ y == start).
Proof.
  split; [|split].
  - intros num Hn; unfold Np.linspace.
    replace (num <? 0)%Z with true by (symmetry; apply Z.ltb_lt; exact Hn).
    eexists; reflexivity.
  - reflexivity.
  - eexists; split; [apply linspace_one | ring].
Qed.

(** Edge cases of [linspace]: a negative count raises [ValueError], a
    count of [0] gives the empty array, a count of [1] gives [[start]]. *)
Theorem linspace_edge_cases (start stop : Q) :
  (forall num, (num < 0)%Z ->
     exists msg, Np.linspace start stop num = Raise (ValueError msg)) /\
  Np.linspace start stop 0 = Ok [] /\
  (exists y, Np.linspace start stop 1 = Ok [y] /\ y == start).
Proof. apply linspace_edge_cases_aux. Qed.

Lemma linspace_within_aux (start stop lo hi : Q) (num : Z)
    (Hstart : lo <= start <= hi) (Hstop : lo <= stop <= hi)
    (Hn : (0 <= num)%Z) :
  exists y, Np.linspace start stop num = Ok y /\
            Forall (fun x => lo <= x <= hi) y.
Proof.
  destruct (Z.eq_dec num 0) as [->|H0]; [eexists; split; [reflexivity|constructor]|].
  destruct (Z.eq_dec num 1) as [->|H1].
  { eexists; split; [apply linspace_one|].
    repeat constructor; rewrite Qmult_0_l, Qplus_0_l; apply Hstart. }
  set (m := (Z.to_nat num - 2)%nat).
  replace num with (Z.of_nat (S (S m))) by (unfold m; lia).
  destruct (linspace_shape start stop m) as [g [Hy Hg]].
  exists (map g (seq 0 (S m)) ++ [stop])%list; split; [exact Hy|].
  apply Forall_app; split; [|repeat constructor; apply Hstop].
  apply Forall_map, Forall_forall; intros i Hi; apply in_seq in Hi.
  set (c := inject_Z (Z.of_nat (S m))) in Hg.
  assert (Hc : 0 < c) by apply inject_Z_of_nat_S_pos.
  set (t := (inject_Z (Z.of_nat i) / c)%Q).
  assert (Ht0 : 0 <= t).
  { unfold t; apply Qle_shift_div_l; [exact Hc|].
    rewrite Qmult_0_l; unfold Qle; cbn; lia. }
  assert (Ht1 : t <= 1).
  { unfold t; apply Qle_shift_div_r; [exact Hc|].
    rewrite Qmult_1_l; unfold c, Qle; cbn; lia. }
  assert (Hgt : g i == start + t * (stop - start)).
  { rewrite Hg; unfold t; field; intro E; rewrite E in Hc; discriminate. }
  rewrite Hgt; destruct Hstart, Hstop; split; nra.
Qed.

(** Every point of [linspace(start, stop, num)] lies in any interval
    [[lo, hi]] holding both [start] and [stop]. *)
Theorem linspace_within (start stop lo hi : Q) (num : Z)
    (Hstart : lo <= start <= hi) (Hstop : lo <= stop <= hi)
    (Hn : (0 <= num)%Z) :
  exists y, Np.linspace start stop num = Ok y /\
            Forall (fun x => lo <= x <= hi) y.
Proof. apply linspace_within_aux; assumption. Qed.

Lemma linspace_within_witness :
  ((100000 # 1) <= 3000000000 # 1 <= 10000000000 # 1 /\
   (100000 # 1) <= 4000000000 # 1 <= 10000000000 # 1 /\ (0 <= 30)%Z) /\
  exists y, Np.linspace (3000000000 # 1) (4000000000 # 1) 30 = Ok y /\
            Forall (fun x => 100000 # 1 <= x <= 10000000000 # 1) y.
Proof.
  assert (H1 : (100000 # 1) <= 3000000000 # 1 <= 10000000000 # 1)
    by (split; apply Qle_bool_imp_le; reflexivity).
  assert (H2 : (100000 # 1) <= 4000000000 # 1 <= 10000000000 # 1)
    by (split; apply Qle_bool_imp_le; reflexivity).
  assert (H3 : (0 <= 30)%Z) by lia.
  split; [auto|].
  exact (linspace_within _ _ _ _ 30 H1 H2 H3).
Defined.

(* ------------------------------------------------------------------ *)
(** ** The sweep: order of the calls, edge cases *)

Section SweepTrace.
Context {D : Type} (dr : Driver D).

Lemma sweep_points_ok_trace (fs : Np.arr1) :
  forall f counts w c w',
    sweep_points dr fs f counts w = (Ok c, w') ->
    trace w' = (trace w ++ pass_events fs)%list.
Proof.
  induction fs as [|q fs IH]; intros f counts w c w' H; cbn in H.
  - injection H as _ <-; rewrite app_nil_r; reflexivity.
  - apply bind_inv in H as [[e [_ Hr]] | [u [w1 [H1 H]]]]; [discriminate|].
    apply bind_inv in H as [[e [_ Hr]] | [x [w2 [H2 H]]]]; [discriminate|].
    apply bind_inv in H as [[e [_ Hr]] | [cs [w3 [H3 H]]]]; [discriminate|].
    apply call_inv in H1; apply call_inv in H2; apply lift_inv in H3 as [-> _].
    apply IH in H; rewrite H, H2, H1, <- !app_assoc; reflexivity.
Qed.

Variables (dataset : string) (start stop : Q) (num_points iterations : Z).

Lemma iteration_ok_trace fs data w data' w' :
  Np.linspace start stop num_points = Ok fs ->
  iteration dr dataset start stop num_points iterations data w = (Ok data', w') ->
  exists a, data' = (data ++ [a])%list /\
    trace w' = (trace w ++ pass_events fs ++
                [EvPush dataset (record start stop num_points iterations data')])%list.
Proof.
  intros Hfs H; unfold iteration in H.
  apply bind_inv in H as [[e [_ Hr]] | [fs' [w1 [H1 H]]]]; [discriminate|].
  apply lift_inv in H1 as [-> Hfs']; rewrite Hfs in Hfs'; injection Hfs' as <-.
  apply bind_inv in H as [[e [_ Hr]] | [counts [w2 [H2 H]]]]; [discriminate|].
  apply sweep_points_ok_trace in H2.
  apply bind_inv in H as [[e [_ Hr]] | [a [w3 [H3 H]]]]; [discriminate|].
  apply lift_inv in H3 as [-> _].
  unfold bind, push, ret in H; cbn in H; injection H as <- <-; cbn.
  exists a; split; [reflexivity|]; rewrite H2, <- app_assoc; reflexivity.
Qed.

Lemma loop_ok_trace fs n :
  Np.linspace start stop num_points = Ok fs ->
  forall data w data' w',
  loop dr dataset start stop num_points iterations n data w = (Ok data', w') ->
  exists arrs, data' = (data ++ arrs)%list /\ length arrs = n /\
    trace w' = (trace w ++ concat (map (fun k =>
                  pass_events fs ++
                  [EvPush dataset (record start stop num_points iterations
                                     (data ++ firstn k arrs))])
                (seq 1 n)))%list.
Proof.
  intro Hfs; induction n as [|n IH]; intros data w data' w' H; cbn in H.
  - injection H as <- <-; exists []; rewrite !app_nil_r; auto.
  - apply bind_inv in H as [[e [_ Hr]] | [d1 [w1 [H1 H]]]]; [discriminate|].
    apply (iteration_ok_trace fs) in H1 as [a [-> Ht1]]; [|exact Hfs].
    apply IH in H as [arrs [-> [Hl Ht]]].
    exists (a :: arrs); repeat split.
    + rewrite <- app_assoc; reflexivity.
    + cbn; rewrite Hl; reflexivity.
    + rewrite Ht, Ht1, <- !app_assoc; cbn [seq map concat firstn].
      rewrite <- !app_assoc; do 2 f_equal.
      rewrite <- (seq_shift n 1), map_map; cbn [firstn].
      f_equal; f_equal; apply map_ext; intro k; rewrite <- app_assoc; reflexivity.
Qed.

End SweepTrace.

Lemma length_pass_events fs : length (pass_events fs) = (2 * length fs)%nat.
Proof.
  unfold pass_events; induction fs as [|q fs IH]; [reflexivity|].
  simpl flat_map; cbn [length app]; rewrite IH; lia.
Qed.

Lemma length_concat_map_seq {A} (g : nat -> list A) (L : nat) :
  (forall k, length (g k) = L) ->
  forall n a, length (concat (map g (seq a n))) = (n * L)%nat.
Proof.
  intros HL; induction n as [|n IH]; intro a; [reflexivity|].
  cbn [seq map concat]; rewrite length_app, HL, IH; lia.
Qed.

(** The exact order of what a completed run of [odmr_sweep] does:
    [set_amplitude(6.5)], [set_output_en(True)], then per iteration, for
    each swept frequency in [linspace] order, [set_frequency] followed by
    one [cnts(0.01)], and finally one [push] to the channel [dataset]
    carrying the history so far.  In all, [2 + iterations * (2 *
    num_points + 1)] events. *)
Theorem odmr_sweep_call_order {D} (dr : Driver D) (d0 : D)
    (dataset : string) (start stop : Q) (num_points iterations : Z)
    (w : world D)
    (Hrun : odmr_sweep dr dataset start stop num_points iterations
              (mkWorld d0 []) = (Ok tt, w)) :
  exists fs arrs,
    length arrs = Z.to_nat iterations /\
    ((0 < iterations)%Z -> Np.linspace start stop num_points = Ok fs) /\
    trace w = ([EvSetAmplitude (Fin (13 # 2)); EvSetOutputEn true] ++
               concat (map (fun k =>
                 pass_events fs ++
                 [EvPush dataset (record start stop num_points iterations
                                    (firstn k arrs))])
                 (seq 1 (Z.to_nat iterations))))%list /\
    length (trace w) = (2 + Z.to_nat iterations * (2 * Z.to_nat num_points + 1))%nat.
Proof.
  unfold odmr_sweep in Hrun.
  apply bind_inv in Hrun as [[e [_ Hr]] | [u [wp [Hp H]]]]; [discriminate|].
  destruct u; apply prologue_ok in Hp.
  apply bind_inv in H as [[e [_ Hr]] | [data [w1 [Hl H]]]]; [discriminate|].
  unfold ret in H; injection H as <-.
  destruct (Np.linspace start stop num_points) as [fs|e] eqn:Hfs.
  - pose proof Hfs as Hlen; apply linspace_length in Hlen.
    destruct (loop_ok_trace dr dataset start stop num_points iterations fs _ Hfs
                _ _ _ _ Hl) as [arrs [_ [Harrs Ht]]].
    exists fs, arrs; repeat split; auto.
    + rewrite Ht, Hp; reflexivity.
    + rewrite Ht, Hp, length_app; cbn [length].
      rewrite (length_concat_map_seq _ (2 * Z.to_nat num_points + 1)); [lia|].
      intro k; rewrite length_app, length_pass_events; cbn; lia.
  - pose proof Hl as Hl'.
    apply loop_ok in Hl' as [arrs [_ [Harrs [Hall _]]]].
    destruct arrs as [|a arrs].
    + cbn in Harrs; rewrite <- Harrs in Hl; cbn in Hl; injection Hl as _ <-.
      exists [], []; repeat split.
      * exact Harrs.
      * intro; lia.
      * rewrite Hp, <- Harrs; reflexivity.
      * rewrite Hp, <- Harrs; reflexivity.
    + apply Forall_inv in Hall; destruct Hall as [fs [Hfs' _]]; congruence.
Qed.

Lemma odmr_sweep_call_order_witness :
  odmr_sweep const10_drv "odmr" (3000000000 # 1) (4000000000 # 1) 5 3
    (mkWorld SG.init []) = (Ok tt, snd demo_run) /\
  exists fs arrs,
    length arrs = Z.to_nat 3 /\
    ((0 < 3)%Z -> Np.linspace (3000000000 # 1) (4000000000 # 1) 5 = Ok fs) /\
    trace (snd demo_run) =
      ([EvSetAmplitude (Fin (13 # 2)); EvSetOutputEn true] ++
       concat (map (fun k =>
         pass_events fs ++
         [EvPush "odmr" (record (3000000000 # 1) (4000000000 # 1) 5 3
                           (firstn k arrs))])
         (seq 1 (Z.to_nat 3))))%list /\
    length (trace (snd demo_run)) = (2 + Z.to_nat 3 * (2 * Z.to_nat 5 + 1))%nat.
Proof.
  assert (H : odmr_sweep const10_drv "odmr" (3000000000 # 1) (4000000000 # 1) 5 3
                (mkWorld SG.init []) = (Ok tt, snd demo_run))
    by (vm_compute; reflexivity).
  split; [exact H|].
  exact (odmr_sweep_call_order const10_drv SG.init "odmr" _ _ 5 3 _ H).
Defined.

(** With [iterations <= 0] the loop body never runs: [odmr_sweep] does
    exactly what its two opening driver calls do, so it issues no
    [set_frequency], no [cnts] and pushes nothing. *)
Theorem odmr_sweep_no_iterations {D} (dr : Driver D)
    (dataset : string) (start stop : Q) (num_points iterations : Z)
    (Hit : (iterations <= 0)%Z) (w : world D) :
  odmr_sweep dr dataset start stop num_points iterations w = prologue dr w.
Proof.
  unfold odmr_sweep; replace (Z.to_nat iterations) with 0%nat by lia.
  unfold bind at 1; destruct (prologue dr w) as [[[]|e] w']; reflexivity.
Qed.

Lemma odmr_sweep_no_iterations_witness :
  (0 <= 0)%Z /\
  odmr_sweep const10_drv "odmr" (3000000000 # 1) (4000000000 # 1) 5 0 w0 =
  prologue const10_drv w0.
Proof. split; [lia | apply odmr_sweep_no_iterations; lia]. Defined.

(** A negative [num_points] with at least one iteration: once the two
    opening calls have returned, [np.linspace] raises [ValueError]
    before any [set_frequency], [cnts] or [push]. *)
Theorem odmr_sweep_negative_points {D} (dr : Driver D)
    (dataset : string) (start stop : Q) (num_points iterations : Z)
    (Hn : (num_points < 0)%Z) (Hit : (1 <= iterations)%Z) (w : world D) :
  exists msg,
    odmr_sweep dr dataset start stop num_points iterations w =
    match prologue dr w with
    | (Ok _, wp) => (Raise (ValueError msg), wp)
    | (Raise e, wp) => (Raise e, wp)
    end.
Proof.
  destruct (proj1 (linspace_edge_cases_aux start stop) num_points Hn) as [msg Hm].
  exists msg; unfold odmr_sweep.
  replace (Z.to_nat iterations) with (S (Z.to_nat iterations - 1)) by lia.
  unfold bind at 1; destruct (prologue dr w) as [[[]|e] wp]; [|reflexivity].
  cbn; unfold iteration, bind; rewrite Hm; reflexivity.
Qed.

Lemma odmr_sweep_negative_points_witness :
  (-1 < 0)%Z /\ (1 <= 2)%Z /\
  exists msg,
    odmr_sweep const10_drv "odmr" (3000000000 # 1) (4000000000 # 1) (-1) 2 w0 =
    match prologue const10_drv w0 with
    | (Ok _, wp) => (Raise (ValueError msg), wp)
    | (Raise e, wp) => (Raise e, wp)
    end.
Proof.
  split; [lia | split; [lia | apply odmr_sweep_negative_points; lia]].
Defined.

(* ------------------------------------------------------------------ *)
(** ** A sweep launched from the widgets *)

Lemma freq_check_passes q : freq_in_range q ->
  py_lt (Fin q) f_100e3 || py_gt (Fin q) f_10e9 = false.
Proof.
  intros [H1 H2]; unfold py_gt, py_lt, f_100e3, f_10e9.
  apply Qle_bool_iff in H1, H2; rewrite H1, H2; reflexivity.
Qed.

Lemma setitem_ok (a : Np.arr1) (i : nat) (x : Q) :
  (i < length a)%nat -> exists a', Np.setitem a i x = Ok a' /\ length a' = length a.
Proof.
  revert i; induction a as [|h t IH]; intros [|i] Hi; cbn in Hi; try lia.
  - eexists; split; reflexivity.
  - destruct (IH i) as [t' [Ht Hl]]; [lia|].
    exists (h :: t'); cbn; rewrite Ht; auto.
Qed.

Section Accepting.

Context {D : Type} (dr : Driver D).

(** A driver that accepts the calls [odmr_sweep] makes with in-range
    arguments. *)
Hypothesis Hfreq : forall q d, freq_in_range q ->
  exists d', set_frequency dr (Fin q) d = (Ok tt, d').
Hypothesis Hcnts : forall d, exists c d', cnts dr (1 # 100) d = (Ok c, d').

Lemma sweep_points_accepting fs : forall f counts w,
  Forall freq_in_range fs -> (f + length fs <= length counts)%nat ->
  exists counts' w',
    sweep_points dr fs f counts w = (Ok counts', w') /\
    length counts' = length counts.
Proof.
  induction fs as [|q fs IH]; intros f counts w Hall Hlen.
  - exists counts, w; auto.
  - inversion Hall as [|? ? Hq Hfs]; subst; cbn [length] in Hlen.
    destruct (Hfreq q (drv w) Hq) as [d1 H1].
    destruct (Hcnts d1) as [c [d2 H2]].
    destruct (setitem_ok counts f c) as [c1 [Hc1 Hl1]]; [lia|].
    destruct (IH (S f) c1
                (mkWorld d2 ((trace w ++ [EvSetFrequency (Fin q)]) ++ [EvCnts (1 # 100)])%list)
                Hfs ltac:(lia)) as [c2 [w2 [H3 Hl2]]].
    exists c2, w2; split; [|congruence].
    cbn [sweep_points]; unfold bind at 1, drv_set_frequency, call; rewrite H1.
    unfold bind at 1, drv_cnts, call; cbn [drv trace]; rewrite H2.
    unfold bind at 1, lift; rewrite Hc1; exact H3.
Qed.

Lemma loop_accepting dataset start stop num_points iterations fs :
  Np.linspace start stop num_points = Ok fs -> Forall freq_in_range fs ->
  forall n data w, exists data' w',
    loop dr dataset start stop num_points iterations n data w = (Ok data', w').
Proof.
  intros Hfs Hall; pose proof (linspace_length _ _ _ _ Hfs) as Hlen.
  induction n as [|n IH]; intros data w; [exists data, w; reflexivity|].
  destruct (sweep_points_accepting fs 0 (Np.zeros num_points) w Hall)
    as [c [w1 [Hs Hl]]].
  { unfold Np.zeros; rewrite repeat_length; lia. }
  assert (Hst : Np.stack1 [map (fun x => x / (1000000000 # 1)) fs; c] =
                Ok [map (fun x => x / (1000000000 # 1)) fs; c]).
  { cbn; rewrite Hl, length_map; unfold Np.zeros; rewrite repeat_length.
    replace (Z.to_nat num_points) with (length fs) by lia.
    rewrite Nat.eqb_refl; reflexivity. }
  set (data1 := (data ++ [[map (fun x => x / (1000000000 # 1)) fs; c]])%list).
  set (w2 := mkWorld (drv w1) (trace w1 ++ [EvPush dataset
               (record start stop num_points iterations data1)])%list).
  destruct (IH data1 w2) as [d3 [w3 H3]].
  exists d3, w3; cbn [loop]; unfold bind at 1, iteration.
  unfold bind at 1; rewrite Hfs; cbn [lift ret].
  unfold bind at 1; rewrite Hs.
  unfold bind at 1; rewrite Hst; cbn [lift ret].
  exact H3.
Qed.

End Accepting.

(** Parameters inside the bounds of the widget's spin boxes (both
    frequencies in [[100e3, 10e9]], at least one point and one
    iteration) always give a complete run of the sweep [sweep_clicked]
    launches, on any driver that accepts [set_amplitude(6.5)],
    [set_output_en(True)], [cnts(0.01)] and every frequency of
    [[100e3, 10e9]] (the range [SigGen.set_frequency] accepts): nothing
    raises, and one record is pushed per iteration. *)
Theorem sweep_clicked_in_bounds_completes {D} (dr : Driver D) (d0 : D)
    (Hamp : forall d, exists d', set_amplitude dr (Fin (13 # 2)) d = (Ok tt, d'))
    (Hout : forall d, exists d', set_output_en dr true d = (Ok tt, d'))
    (Hfreq : forall q d, freq_in_range q ->
               exists d', set_frequency dr (Fin q) d = (Ok tt, d'))
    (Hcnts : forall d, exists c d', cnts dr (1 # 100) d = (Ok c, d'))
    (p : Widgets.Params) (Hb : Widgets.in_bounds p) :
  exists w,
    Widgets.sweep_clicked dr p (mkWorld d0 []) = (Ok tt, w) /\
    length (pushes w) = Z.to_nat (Widgets.iterations p).
Proof.
  destruct p as [dataset start stop num iters]; unfold Widgets.in_bounds in Hb;
    cbn [Widgets.start_freq Widgets.stop_freq Widgets.num_points
         Widgets.iterations Widgets.dataset] in *.
  destruct Hb as [Hstart [Hstop [Hn Hit]]].
  destruct (linspace_within_aux start stop (100000 # 1) (10000000000 # 1) num
              Hstart Hstop ltac:(lia)) as [fs [Hfs Hall]].
  destruct (Hamp d0) as [d1 H1]; destruct (Hout d1) as [d2 H2].
  set (wp := mkWorld d2 [EvSetAmplitude (Fin (13 # 2)); EvSetOutputEn true]).
  assert (Hp : prologue dr (mkWorld d0 []) = (Ok tt, wp)).
  { unfold prologue, bind, drv_set_amplitude, drv_set_output_en, call.
    cbn [drv trace]; rewrite H1; cbn [drv trace]; rewrite H2; reflexivity. }
  destruct (loop_accepting dr Hfreq Hcnts dataset start stop num iters fs Hfs Hall
              (Z.to_nat iters) [] wp) as [d [w Hl]].
  exists w; split.
  - unfold Widgets.sweep_clicked, odmr_sweep; cbn [Widgets.start_freq
      Widgets.stop_freq Widgets.num_points Widgets.iterations Widgets.dataset].
    unfold bind at 1; rewrite Hp; unfold bind; rewrite Hl; reflexivity.
  - destruct (loop_ok dr dataset start stop num iters
                (Z.to_nat iters) [] wp d w Hl) as [arrs [_ [_ [_ [Hpush _]]]]].
    assert (Hp0 : pushes wp = []) by reflexivity.
    rewrite Hpush, Hp0; unfold pushed_after; rewrite length_app, length_map, length_seq.
    reflexivity.
Qed.

Lemma sweep_clicked_in_bounds_completes_witness :
  (forall d, exists d', set_amplitude const10_drv (Fin (13 # 2)) d = (Ok tt, d')) /\
  (forall d, exists d', set_output_en const10_drv true d = (Ok tt, d')) /\
  (forall q d, freq_in_range q ->
     exists d', set_frequency const10_drv (Fin q) d = (Ok tt, d')) /\
  (forall d, exists c d', cnts const10_drv (1 # 100) d = (Ok c, d')) /\
  Widgets.in_bounds (Widgets.mkParams "odmr" (3000000000 # 1) (4000000000 # 1) 100 20) /\
  exists w,
    Widgets.sweep_clicked const10_drv
      (Widgets.mkParams "odmr" (3000000000 # 1) (4000000000 # 1) 100 20)
      (mkWorld SG.init []) = (Ok tt, w) /\
    length (pushes w) = Z.to_nat 20.
Proof.
  assert (Ha : forall d, exists d', set_amplitude const10_drv (Fin (13 # 2)) d = (Ok tt, d'))
    by (intro d; eexists; reflexivity).
  assert (Ho : forall d, exists d', set_output_en const10_drv true d = (Ok tt, d'))
    by (intro d; eexists; reflexivity).
  assert (Hf : forall q d, freq_in_range q ->
             exists d', set_frequency const10_drv (Fin q) d = (Ok tt, d')).
  { intros q d Hq; cbn [set_frequency const10_drv]; unfold SG.set_frequency.
    rewrite (freq_check_passes q Hq); eexists; reflexivity. }
  assert (Hc : forall d, exists c d', cnts const10_drv (1 # 100) d = (Ok c, d'))
    by (intro d; do 2 eexists; reflexivity).
  assert (Hb : Widgets.in_bounds
                 (Widgets.mkParams "odmr" (3000000000 # 1) (4000000000 # 1) 100 20)).
  { unfold Widgets.in_bounds; cbn.
    repeat split; try (apply Qle_bool_imp_le; reflexivity); lia. }
  split; [exact Ha|]; split; [exact Ho|]; split; [exact Hf|]; split; [exact Hc|].
  split; [exact Hb|].
  exact (sweep_clicked_in_bounds_completes const10_drv SG.init Ha Ho Hf Hc _ Hb).
Defined.

(* ------------------------------------------------------------------ *)
(** ** The plot widget's [update] *)

Lemma add_rows_nth (r s : Np.arr1) : length s = length r ->
  forall j, nth j (map (fun '(x, y) => (x + y)%Q) (combine r s)) 0%Q ==
            nth j r 0%Q + nth j s 0%Q.
Proof.
  revert s; induction r as [|x r IH]; intros [|y s] Hl j; cbn in Hl; try discriminate.
  - destruct j; cbn; ring.
  - destruct j as [|j]; cbn; [reflexivity|].
    apply IH; lia.
Qed.

Lemma add_rows_length (r s : Np.arr1) : length s = length r ->
  length (map (fun '(x, y) => (x + y)%Q) (combine r s)) = length r.
Proof. intro Hl; rewrite length_map, length_combine; lia. Qed.

Lemma add2_entry (a b : Np.arr2) : Np.shape2 b = Np.shape2 a ->
  Np.shape2 (Np.add2 a b) = Np.shape2 a /\
  forall i j, entry (Np.add2 a b) i j == entry a i j + entry b i j.
Proof.
  unfold Np.shape2, entry; revert b.
  induction a as [|r a IH]; intros [|s b] Hs; cbn in Hs; try discriminate.
  - split; [reflexivity|]; intros [|i] j; cbn; destruct j; cbn; ring.
  - injection Hs as Hl Hs.
    destruct (IH b Hs) as [IHs IHe].
    unfold Np.add2 in *; cbn [combine map].
    split.
    + cbn [map]; rewrite add_rows_length by exact Hl; f_equal; exact IHs.
    + intros [|i] j; cbn [nth]; [apply add_rows_nth, Hl|apply IHe].
Qed.

Lemma fold_add2_entry (a : Np.arr2) (rest : list Np.arr2) :
  Forall (fun b => Np.shape2 b = Np.shape2 a) rest ->
  forall acc, Np.shape2 acc = Np.shape2 a ->
  Np.shape2 (fold_left Np.add2 rest acc) = Np.shape2 a /\
  forall i j, entry (fold_left Np.add2 rest acc) i j ==
              entry acc i j + sumQ (map (fun b => entry b i j) rest).
Proof.
  induction 1 as [|b rest Hb _ IH]; intros acc Hacc; cbn [fold_left map].
  - split; [exact Hacc|]; intros; cbn; ring.
  - destruct (add2_entry acc b ltac:(congruence)) as [Hs He].
    destruct (IH (Np.add2 acc b) ltac:(congruence)) as [Hs' He'].
    split; [exact Hs'|]; intros i j.
    rewrite He', He; cbn [sumQ fold_right]; unfold sumQ; ring.
Qed.

Lemma scale_row_nth (n : Q) (r : Np.arr1) j :
  nth j (map (fun x => x / n) r) 0%Q == nth j r 0%Q / n.
Proof.
  revert j; induction r as [|x r IH]; intros [|j].
  - cbn; unfold Qdiv; ring.
  - cbn; unfold Qdiv; ring.
  - reflexivity.
  - apply IH.
Qed.

Lemma scale_entry (n : Q) (m : Np.arr2) i j :
  entry (map (map (fun x => x / n)) m) i j == entry m i j / n.
Proof.
  unfold entry; revert i; induction m as [|r m IH]; intros [|i].
  - cbn; destruct j; cbn; unfold Qdiv; ring.
  - cbn; destruct j; cbn; unfold Qdiv; ring.
  - apply scale_row_nth.
  - apply IH.
Qed.

Lemma rectangular_shape (a b : Np.arr2) :
  Np.shape2 b = Np.shape2 a -> Np.rectangular b = Np.rectangular a.
Proof. intro H; unfold Np.rectangular; rewrite H; reflexivity. Qed.

Lemma same_shape_forallb (a : Np.arr2) (rest : list Np.arr2) :
  Forall (fun b => Np.shape2 b = Np.shape2 a) rest ->
  forallb (fun b => if list_eq_dec Nat.eq_dec (Np.shape2 b) (Np.shape2 a)
                    then true else false) rest = true.
Proof.
  intro Hall; apply forallb_forall; intros b Hb; rewrite Forall_forall in Hall.
  destruct (list_eq_dec _ _ _) as [_|E]; [reflexivity|exfalso; exact (E (Hall b Hb))].
Qed.

Lemma same_shape_rectangular (a : Np.arr2) (rest : list Np.arr2) :
  Np.rectangular a = true ->
  Forall (fun b => Np.shape2 b = Np.shape2 a) rest ->
  forallb Np.rectangular (a :: rest) = true.
Proof.
  intros Ha Hall; cbn [forallb]; rewrite Ha; cbn.
  apply forallb_forall; intros b Hb; rewrite Forall_forall in Hall.
  rewrite (rectangular_shape a b (Hall b Hb)); exact Ha.
Qed.

Lemma average_stack_ok (a : Np.arr2) (rest : list Np.arr2) :
  Np.rectangular a = true -> Np.size2 a <> 0%nat ->
  Forall (fun b => Np.shape2 b = Np.shape2 a) rest ->
  exists m, Np.average_stack (a :: rest) = Ok m /\
    Np.shape2 m = Np.shape2 a /\
    forall i j, entry m i j ==
      sumQ (map (fun b => entry b i j) (a :: rest)) /
      inject_Z (Z.of_nat (S (length rest))).
Proof.
  intros Hrect Hsz Hall.
  destruct (fold_add2_entry a rest Hall a eq_refl) as [Hs He].
  eexists; unfold Np.average_stack.
  rewrite (same_shape_rectangular a rest Hrect Hall), (same_shape_forallb a rest Hall).
  apply Nat.eqb_neq in Hsz; rewrite Hsz.
  split; [reflexivity|]; split.
  - unfold Np.shape2 in *; rewrite map_map.
    rewrite <- Hs; apply map_ext; intro r; apply length_map.
  - intros i j; rewrite scale_entry, He; cbn [map sumQ fold_right]; reflexivity.
Qed.

Lemma lookup_missing (ds : list (string * list Np.arr2)) (k : string) :
  ~ In k (map fst ds) -> Plot.lookup k ds = Raise (KeyError k).
Proof.
  induction ds as [|[k' v] ds IH]; intro Hn; [reflexivity|].
  cbn in *; destruct (String.eqb_spec k k') as [->|_]; [tauto|].
  apply IH; tauto.
Qed.

(** Edge cases of the plot widget's [update]: nothing is plotted when
    [pop()] reports no new data; a missing ["mydata"] series raises
    [KeyError]; an empty series, a ragged array or arrays of different
    shapes make [np.stack] raise [ValueError]; zero-size arrays make
    [np.average] raise [ZeroDivisionError]; non-empty arrays with a
    single row make [avg_data[1]] raise [IndexError]. *)
Theorem plot_update_edge_cases (ds : list (string * list Np.arr2)) :
  Plot.update (Plot.mkDataSink false ds) = Ok None /\
  (~ In "mydata" (map fst ds) ->
     Plot.update (Plot.mkDataSink true ds) = Raise (KeyError "mydata")) /\
  (Plot.lookup "mydata" ds = Ok [] ->
     exists msg, Plot.update (Plot.mkDataSink true ds) = Raise (ValueError msg)) /\
  (forall a rest, Plot.lookup "mydata" ds = Ok (a :: rest) ->
     Exists (fun b => Np.rectangular b = false) (a :: rest) ->
     exists msg, Plot.update (Plot.mkDataSink true ds) = Raise (ValueError msg)) /\
  (forall a rest, Plot.lookup "mydata" ds = Ok (a :: rest) ->
     Exists (fun b => Np.shape2 b <> Np.shape2 a) rest ->
     exists msg, Plot.update (Plot.mkDataSink true ds) = Raise (ValueError msg)) /\
  (forall a rest, Plot.lookup "mydata" ds = Ok (a :: rest) ->
     Np.rectangular a = true ->
     Forall (fun b => Np.shape2 b = Np.shape2 a) rest -> Np.size2 a = 0%nat ->
     exists msg, Plot.update (Plot.mkDataSink true ds) = Raise (ZeroDivisionError msg)) /\
  (forall a rest, Plot.lookup "mydata" ds = Ok (a :: rest) ->
     Np.rectangular a = true ->
     Forall (fun b => Np.shape2 b = Np.shape2 a) rest -> Np.size2 a <> 0%nat ->
     (length a < 2)%nat ->
     exists msg, Plot.update (Plot.mkDataSink true ds) = Raise (IndexError msg)).
Proof.
  split; [reflexivity|]; split; [|split; [|split; [|split; [|split]]]].
  - intro Hn; unfold Plot.update; cbn [Plot.pop Plot.datasets].
    rewrite lookup_missing by exact Hn; reflexivity.
  - intro Hk; unfold Plot.update; cbn [Plot.pop Plot.datasets]; rewrite Hk.
    eexists; reflexivity.
  - intros a rest Hk Hex; unfold Plot.update; cbn [Plot.pop Plot.datasets].
    rewrite Hk; unfold Np.average_stack.
    destruct (forallb Np.rectangular (a :: rest)) eqn:E; [|eexists; reflexivity].
    exfalso; apply Exists_exists in Hex as [b [Hb Hne]].
    rewrite forallb_forall in E; rewrite (E b Hb) in Hne; discriminate.
  - intros a rest Hk Hex; unfold Plot.update; cbn [Plot.pop Plot.datasets].
    rewrite Hk; unfold Np.average_stack.
    destruct (forallb Np.rectangular (a :: rest)); [|eexists; reflexivity].
    destruct (forallb _ rest) eqn:E; [|eexists; reflexivity].
    exfalso; apply Exists_exists in Hex as [b [Hb Hne]].
    rewrite forallb_forall in E; specialize (E b Hb).
    destruct (list_eq_dec _ _ _); [contradiction|discriminate].
  - intros a rest Hk Hrect Hall Hsz; unfold Plot.update; cbn [Plot.pop Plot.datasets].
    rewrite Hk; unfold Np.average_stack.
    rewrite (same_shape_rectangular a rest Hrect Hall), (same_shape_forallb a rest Hall).
    rewrite Hsz; eexists; reflexivity.
  - intros a rest Hk Hrect Hall Hsz Hlt.
    destruct (average_stack_ok a rest Hrect Hsz Hall) as [m [Hm [Hs _]]].
    unfold Plot.update; cbn [Plot.pop Plot.datasets]; rewrite Hk, Hm.
    assert (Hlm : length m = length a)
      by (unfold Np.shape2 in Hs; rewrite <- (length_map (@length Q) m), Hs;
          apply length_map).
    destruct m as [|x [|y m]]; cbn in Hlm; try lia; eexists; reflexivity.
Qed.







